(** * Model Proxy Server: the deployment orchestrator

    A shallow embedding of the deployment registry ([services/user_service.py]),
    the model loader ([services/model_service.py]), the inference service
    ([services/inference_service.py]) and the tenant routes of [app.py],
    together with the event loop that interleaves request handlers with the
    background load tasks started by [asyncio.create_task].

    Python dictionaries are finite maps ([gmap]); a method of a service takes
    the service state ([self]) and returns the updated state together with its
    result.  Values obtained from the outside world (the clock, [uuid.uuid4],
    [secrets.token_urlsafe], the metadata service, the model runtime) are
    inputs of the operation that consumes them. *)

From stdpp Require Import gmap strings list fin_maps pretty.

Open Scope string_scope.

(* ===================================================================== *)
(** ** models.py *)
(* ===================================================================== *)

Inductive DeploymentStatus := PENDING | DEPLOYING | READY | ERROR | STOPPED.

#[global] Instance DeploymentStatus_eq_dec : EqDecision DeploymentStatus.
Proof. solve_decision. Defined.

(** [DeploymentStatus.value] *)
Definition status_value (s : DeploymentStatus) : string :=
  match s with
  | PENDING => "pending"
  | DEPLOYING => "deploying"
  | READY => "ready"
  | ERROR => "error"
  | STOPPED => "stopped"
  end.

Inductive ModelBackend := TRANSFORMERS | JAX | VLLM.

#[global] Instance ModelBackend_eq_dec : EqDecision ModelBackend.
Proof. solve_decision. Defined.

Definition backend_value (b : ModelBackend) : string :=
  match b with
  | TRANSFORMERS => "transformers"
  | JAX => "jax"
  | VLLM => "vllm"
  end.

(** [datetime] values are read off a clock that the environment supplies. *)
Definition datetime := nat.

(** [class UserDeployment(BaseModel)] *)
Record UserDeployment := mkUserDeployment {
  user_id : string;
  model_name : string;
  backend : ModelBackend;
  status : DeploymentStatus;
  api_key : option string;
  api_key_enabled : bool;
  base_url : string;
  created_at : datetime;
  updated_at : datetime;
  loaded_at : option datetime;
  error_message : option string;
  custom_config : gmap string string
}.

(** Attribute assignments on a [UserDeployment] object:
    [deployment.status = s], [deployment.updated_at = t], and so on. *)
Definition with_status (s : DeploymentStatus) (d : UserDeployment) : UserDeployment :=
  mkUserDeployment (user_id d) (model_name d) (backend d) s (api_key d)
    (api_key_enabled d) (base_url d) (created_at d) (updated_at d)
    (loaded_at d) (error_message d) (custom_config d).

Definition with_updated_at (t : datetime) (d : UserDeployment) : UserDeployment :=
  mkUserDeployment (user_id d) (model_name d) (backend d) (status d) (api_key d)
    (api_key_enabled d) (base_url d) (created_at d) t
    (loaded_at d) (error_message d) (custom_config d).

Definition with_loaded_at (t : datetime) (d : UserDeployment) : UserDeployment :=
  mkUserDeployment (user_id d) (model_name d) (backend d) (status d) (api_key d)
    (api_key_enabled d) (base_url d) (created_at d) (updated_at d)
    (Some t) (error_message d) (custom_config d).

Definition with_error_message (m : string) (d : UserDeployment) : UserDeployment :=
  mkUserDeployment (user_id d) (model_name d) (backend d) (status d) (api_key d)
    (api_key_enabled d) (base_url d) (created_at d) (updated_at d)
    (loaded_at d) (Some m) (custom_config d).

(** [class ChatMessage(BaseModel)] *)
Record ChatMessage := mkChatMessage { role : string; content : string }.

(** [class ChatCompletionUsage], [class ChatCompletionResponse] (the single
    choice is kept as its message). *)
Record ChatCompletionResponse := mkChatCompletionResponse {
  resp_model : string;
  resp_message : ChatMessage;
  resp_finish_reason : string;
  prompt_tokens : nat;
  completion_tokens : nat;
  total_tokens : nat
}.

(** [class DeploymentStatusResponse(BaseModel)] *)
Record DeploymentStatusResponse := mkDeploymentStatusResponse {
  dsr_user_id : string;
  dsr_model_name : string;
  dsr_backend : string;
  dsr_status : DeploymentStatus;
  dsr_api_key : option string;
  dsr_api_key_enabled : bool;
  dsr_base_url : string;
  dsr_created_at : datetime;
  dsr_error_message : option string
}.

(* ===================================================================== *)
(** ** config.py *)
(* ===================================================================== *)

(** The fields of [class Settings(BaseSettings)] that the orchestrator reads. *)
Record Settings := mkSettings {
  port : N;
  api_key_length : nat;
  enable_auth : bool
}.

(** The defaults of [Settings]. *)
Definition default_settings : Settings :=
  {| port := 8000; api_key_length := 32; enable_auth := true |}.

(* ===================================================================== *)
(** ** Exceptions *)
(* ===================================================================== *)

(** The exception classes that matter to the handlers: [except ValueError]
    and [except Exception] clauses tell them apart.  [CancelledError] and
    [KeyboardInterrupt] derive from [BaseException] only. *)
Inductive ExcClass :=
  | ValueErrorCls | KeyErrorCls | OSErrorCls | RuntimeErrorCls | TimeoutErrorCls
  | CancelledErrorCls | KeyboardInterruptCls.

#[global] Instance ExcClass_eq_dec : EqDecision ExcClass.
Proof. solve_decision. Defined.

(** [isinstance(e, Exception)] *)
Definition is_Exception (c : ExcClass) : bool :=
  match c with
  | CancelledErrorCls | KeyboardInterruptCls => false
  | _ => true
  end.

(** [isinstance(e, ValueError)] *)
Definition is_ValueError (c : ExcClass) : bool :=
  match c with ValueErrorCls => true | _ => false end.

(** A raised exception: its class and [str(e)]. *)
Record PyExc := mkPyExc { exc_class : ExcClass; exc_str : string }.

(* ===================================================================== *)
(** ** services/model_service.py: ModelLoader *)
(* ===================================================================== *)

(** The dictionary returned by [_load_transformers_model].  The model,
    tokenizer and pipeline objects are opaque; [md_pipeline] is their
    identity. *)
Record ModelData := mkModelData {
  md_pipeline : nat;
  md_backend : ModelBackend;
  md_task : string;
  md_status : string;
  md_loaded_at : nat
}.

Record ModelLoader := mkModelLoader {
  loaded_models : gmap string ModelData
}.

(** What one call of [load_model] meets outside the process: whether creating
    the model directory raises, and what the Transformers runtime does (an
    exception or the loaded bundle). *)
Record LoadEnv := mkLoadEnv {
  mkdir_raises : option PyExc;
  runtime : PyExc + ModelData
}.

(** [ModelLoader.load_model]: create the directory, then dispatch on the
    backend.  The JAX path falls back to the Transformers runtime; any other
    backend raises [ValueError] (the member is rendered by its value in the
    message).  The [except Exception: ... raise] clause re-raises unchanged. *)
Definition load_model (backend : ModelBackend) (env : LoadEnv)
  : PyExc + ModelData :=
  match mkdir_raises env with
  | Some e => inl e
  | None =>
      match backend with
      | TRANSFORMERS => runtime env
      | JAX => runtime env
      | VLLM =>
          inl (mkPyExc ValueErrorCls ("Unsupported backend: " ++ backend_value VLLM))
      end
  end.

(** [ModelLoader.unload_model] *)
Definition unload_model (self : ModelLoader) (model_key : string) : ModelLoader :=
  match loaded_models self !! model_key with
  | Some _ => mkModelLoader (delete model_key (loaded_models self))
  | None => self
  end.

(* ===================================================================== *)
(** ** services/user_service.py: UserService *)
(* ===================================================================== *)

Record UserService := mkUserService {
  deployments : gmap string UserDeployment;
  active_models : gmap string ModelData
}.

(** [UserService.__init__] *)
Definition UserService_init : UserService := mkUserService ∅ ∅.

(** A background task created by [asyncio.create_task(self._load_user_model(
    user_id, model_name, backend))].  [task_awaiting] is false until the task
    has run up to [await model_loader.load_model(...)]. *)
Record LoadTask := mkLoadTask {
  task_user_id : string;
  task_model_name : string;
  task_backend : ModelBackend;
  task_awaiting : bool
}.

(** What one call of [create_deployment] obtains from outside the process. *)
Record CreateEnv := mkCreateEnv {
  uuid4 : string;                 (* str(uuid.uuid4()) *)
  token_urlsafe : string;         (* secrets.token_urlsafe(api_key_length) *)
  metadata_ip : option string;    (* response.text.strip(), None if the request raises *)
  create_now : datetime           (* datetime.now() *)
}.

(** [UserService.generate_api_key] *)
Definition generate_api_key (env : CreateEnv) : string :=
  "sk-" ++ token_urlsafe env.

(** [UserService._get_external_ip] *)
Definition _get_external_ip (env : CreateEnv) : string :=
  match metadata_ip env with
  | Some ip => ip
  | None => "localhost"
  end.

(** [not user_id] for an [Optional[str]]: [None] and the empty string are falsy. *)
Definition falsy_str (s : option string) : bool :=
  match s with
  | None => true
  | Some u => bool_decide (u = "")
  end.

(** [UserService.generate_user_id] *)
Definition generate_user_id (env : CreateEnv) : string := uuid4 env.

(** [user_id] after [if not user_id: user_id = self.generate_user_id()]. *)
Definition effective_user_id (env : CreateEnv) (user_id0 : option string) : string :=
  if falsy_str user_id0 then generate_user_id env else default "" user_id0.

(** The test [existing.model_name == model_name and existing.status !=
    DeploymentStatus.ERROR] of [create_deployment]. *)
Definition returns_existing (existing : UserDeployment) (model_name0 : string) : bool :=
  bool_decide (model_name existing = model_name0)
  && negb (bool_decide (status existing = ERROR)).

(** [UserService.create_deployment].  Returns the service state, the task
    handed to [asyncio.create_task] (if any) and the returned deployment.
    The coroutine [_get_external_ip] awaits nothing, so the whole call runs
    without yielding to the event loop.  [created_at] and [updated_at] are
    both read off the clock when the record is built. *)
Definition create_deployment (settings : Settings) (env : CreateEnv)
    (self : UserService)
    (model_name0 : string) (backend0 : ModelBackend) (api_key_enabled0 : bool)
    (user_id0 : option string) (custom_config0 : option (gmap string string))
  : UserService * option LoadTask * UserDeployment :=
  let uid := effective_user_id env user_id0 in
  let fresh :=
    let api_key0 := if api_key_enabled0 then Some (generate_api_key env) else None in
    let external_ip := _get_external_ip env in
    let base_url0 :=
      "http://" ++ external_ip ++ ":" ++ pretty (port settings)
        ++ "/user/" ++ uid ++ "/v1" in
    let deployment :=
      {| user_id := uid; model_name := model_name0; backend := backend0;
         status := DEPLOYING; api_key := api_key0;
         api_key_enabled := api_key_enabled0; base_url := base_url0;
         created_at := create_now env; updated_at := create_now env;
         loaded_at := None; error_message := None;
         custom_config := default ∅ custom_config0 |} in
    (mkUserService (<[uid := deployment]> (deployments self)) (active_models self),
     Some (mkLoadTask uid model_name0 backend0 false),
     deployment) in
  match deployments self !! uid with
  | Some existing =>
      if returns_existing existing model_name0
      then (self, None, existing)
      else fresh
  | None => fresh
  end.

(** [UserService._load_user_model], first segment: from the start of the task
    up to the [await]. *)
Definition _load_user_model_start (self : UserService) (uid : string) : UserService :=
  match deployments self !! uid with
  | Some d =>
      mkUserService (<[uid := with_status DEPLOYING d]> (deployments self))
                    (active_models self)
  | None => self
  end.

(** [UserService._load_user_model], second segment: the [await] returns
    [model_data] or raises; [except Exception] handles what it raises.  The
    second component is the exception that leaves the coroutine, if any. *)
Definition _load_user_model_resume (self : UserService) (uid : string)
    (awaited : PyExc + ModelData) (now : datetime)
  : UserService * option PyExc :=
  match awaited with
  | inr model_data =>
      let active := <[uid := model_data]> (active_models self) in
      match deployments self !! uid with
      | Some deployment =>
          let deployment :=
            with_updated_at now (with_loaded_at now (with_status READY deployment)) in
          (mkUserService (<[uid := deployment]> (deployments self)) active, None)
      | None => (mkUserService (deployments self) active, None)
      end
  | inl e =>
      if is_Exception (exc_class e) then
        match deployments self !! uid with
        | Some deployment =>
            let deployment :=
              with_updated_at now
                (with_error_message (exc_str e) (with_status ERROR deployment)) in
            (mkUserService (<[uid := deployment]> (deployments self))
                           (active_models self), None)
        | None => (self, None)
        end
      else (self, Some e)
  end.

(** [UserService.get_deployment] *)
Definition get_deployment (self : UserService) (uid : string) : option UserDeployment :=
  deployments self !! uid.

(** [UserService.get_user_model] *)
Definition get_user_model (self : UserService) (uid : string) : option ModelData :=
  active_models self !! uid.

(** [UserService.list_deployments] *)
Definition list_deployments (self : UserService) : list UserDeployment :=
  (map_to_list (deployments self)).*2.

(** [UserService.stop_deployment] *)
Definition stop_deployment (loader : ModelLoader) (self : UserService)
    (uid : string) (now : datetime) : ModelLoader * UserService * bool :=
  match deployments self !! uid with
  | None => (loader, self, false)
  | Some deployment =>
      let deployment := with_updated_at now (with_status STOPPED deployment) in
      let deps := <[uid := deployment]> (deployments self) in
      match active_models self !! uid with
      | Some _ =>
          (unload_model loader uid,
           mkUserService deps (delete uid (active_models self)), true)
      | None => (loader, mkUserService deps (active_models self), true)
      end
  end.

(** [UserService.delete_deployment] *)
Definition delete_deployment (loader : ModelLoader) (self : UserService)
    (uid : string) (now : datetime) : ModelLoader * UserService * bool :=
  match deployments self !! uid with
  | None => (loader, self, false)
  | Some _ =>
      let '(loader, self, _) := stop_deployment loader self uid now in
      (loader, mkUserService (delete uid (deployments self)) (active_models self), true)
  end.

(** [UserService.validate_api_key].  The presented key is optional so that an
    absent key ([None]) can be passed as well; [==] on [Optional[str]] is
    structural equality. *)
Definition validate_api_key (self : UserService) (uid : string)
    (presented : option string) : bool :=
  match get_deployment self uid with
  | None => true
  | Some deployment =>
      if negb (api_key_enabled deployment) then true
      else bool_decide (api_key deployment = presented)
  end.

(* ===================================================================== *)
(** ** services/inference_service.py: InferenceService *)
(* ===================================================================== *)

(** [InferenceService._format_messages_to_prompt] *)
Definition prompt_part (m : ChatMessage) : list string :=
  if bool_decide (role m = "system") then ["System: " ++ content m]
  else if bool_decide (role m = "user") then ["User: " ++ content m]
  else if bool_decide (role m = "assistant") then ["Assistant: " ++ content m]
  else [].

Definition newline : string := String (Ascii.ascii_of_nat 10) "".

Definition _format_messages_to_prompt (messages : list ChatMessage) : string :=
  String.concat newline (concat (prompt_part <$> messages) ++ ["Assistant:"]).

(** [len(s.split())] on ASCII text: the number of maximal runs of
    non-whitespace characters. *)
Definition is_space (a : Ascii.ascii) : bool :=
  let n := Ascii.nat_of_ascii a in
  (Nat.leb 9 n && Nat.leb n 13) || (Nat.leb 28 n && Nat.leb n 32).

Fixpoint split_len_aux (in_word : bool) (s : string) : nat :=
  match s with
  | EmptyString => 0
  | String a rest =>
      if is_space a then split_len_aux false rest
      else if in_word then split_len_aux true rest
      else S (split_len_aux true rest)
  end.

Definition split_len (s : string) : nat := split_len_aux false s.

(** [ChatMessage(role="assistant", content=response_text)] as built for the
    response.  [content] is declared with [min_length=1]: for the empty text
    the constructor raises pydantic's [ValidationError], a [ValueError]; the
    role assistant meets the pattern of [role].  The text is the one pydantic 1
    gives the error. *)
Definition content_too_short : PyExc :=
  mkPyExc ValueErrorCls
    ("1 validation error for ChatMessage" ++ newline ++ "content" ++ newline
     ++ "  ensure this value has at least 1 characters"
     ++ " (type=value_error.any_str.min_length; limit_value=1)").

Definition assistant_message (response_text : string) : PyExc + ChatMessage :=
  if bool_decide (response_text = "") then inl content_too_short
  else inr (mkChatMessage "assistant" response_text).

(** [InferenceService.chat_completion].  [generated] is the outcome of the
    delegated generation call ([_generate_text2text] or [_generate_causal_lm])
    on the user's model: the response text or the exception it raises.  The
    status in the not-ready message is rendered by its value, as Python up to
    3.10 formats a string-valued enum member. *)
Definition chat_completion (self : UserService) (uid : string)
    (messages : list ChatMessage) (generated : PyExc + string)
  : PyExc + ChatCompletionResponse :=
  match get_deployment self uid with
  | None => inl (mkPyExc ValueErrorCls "User deployment not found")
  | Some deployment =>
      if negb (bool_decide (status_value (status deployment) = "ready")) then
        inl (mkPyExc ValueErrorCls
               ("Model not ready. Status: " ++ status_value (status deployment)))
      else
        match get_user_model self uid with
        | None => inl (mkPyExc ValueErrorCls "Model not loaded")
        | Some model_data =>
            let prompt := _format_messages_to_prompt messages in
            match generated with
            | inl e => inl e
            | inr response_text =>
                let pt := split_len prompt in
                let ct := split_len response_text in
                match assistant_message response_text with
                | inl e => inl e
                | inr message =>
                    inr {| resp_model := model_name deployment;
                           resp_message := message;
                           resp_finish_reason := "stop";
                           prompt_tokens := pt;
                           completion_tokens := ct;
                           total_tokens := pt + ct |}
                end
            end
        end
  end.

(* ===================================================================== *)
(** ** app.py: tenant and admin routes *)
(* ===================================================================== *)

(** The outcome of a route: the returned body, an [HTTPException], or an
    exception that no handler of the route catches. *)
Inductive HTTPResult (A : Type) :=
  | Return (body : A)
  | HTTPException (status_code : nat) (detail : string)
  | Unhandled (e : PyExc).
Arguments Return {A} body.
Arguments HTTPException {A} status_code detail.
Arguments Unhandled {A} e.

(** [verify_api_key]: the dependency of the tenant routes.  [credentials] is
    what [HTTPBearer(auto_error=False)] extracted: the bearer token, or [None]
    when no bearer credential was sent. *)
Definition verify_api_key (settings : Settings) (self : UserService)
    (uid : string) (credentials : option string) : HTTPResult bool :=
  if negb (enable_auth settings) then Return true
  else
    match get_deployment self uid with
    | None => Return true
    | Some deployment =>
        if negb (api_key_enabled deployment) then Return true
        else
          match credentials with
          | None => HTTPException 401 "API key required"
          | Some api_key0 =>
              if negb (validate_api_key self uid (Some api_key0))
              then HTTPException 401 "Invalid API key"
              else Return true
          end
    end.

(** [class ModelDeployRequest(BaseModel)] *)
Record ModelDeployRequest := mkModelDeployRequest {
  req_model_name : string;
  req_backend : ModelBackend;
  req_api_key_enabled : bool;
  req_user_id : option string;
  req_custom_config : option (gmap string string)
}.

(** The body returned by [POST /api/v1/deploy-model]. *)
Record DeployResponse := mkDeployResponse {
  dr_message : string;
  dr_user_id : string;
  dr_model_name : string;
  dr_backend : string;
  dr_status : string;
  dr_api_key_enabled : bool
}.

(** [deploy_model] *)
Definition deploy_model (settings : Settings) (env : CreateEnv)
    (self : UserService) (request : ModelDeployRequest)
  : UserService * option LoadTask * HTTPResult DeployResponse :=
  let '(self', task, deployment) :=
    create_deployment settings env self (req_model_name request)
      (req_backend request) (req_api_key_enabled request)
      (req_user_id request) (req_custom_config request) in
  (self', task,
   Return {| dr_message := "Deploying model " ++ req_model_name request;
             dr_user_id := user_id deployment;
             dr_model_name := model_name deployment;
             dr_backend := backend_value (backend deployment);
             dr_status := status_value (status deployment);
             dr_api_key_enabled := api_key_enabled deployment |}).

(** [get_deployment_status] *)
Definition get_deployment_status (self : UserService) (uid : string)
  : HTTPResult DeploymentStatusResponse :=
  match get_deployment self uid with
  | None => HTTPException 404 "User deployment not found"
  | Some deployment =>
      Return {| dsr_user_id := user_id deployment;
                dsr_model_name := model_name deployment;
                dsr_backend := backend_value (backend deployment);
                dsr_status := status deployment;
                dsr_api_key :=
                  if api_key_enabled deployment then api_key deployment else None;
                dsr_api_key_enabled := api_key_enabled deployment;
                dsr_base_url := base_url deployment;
                dsr_created_at := created_at deployment;
                dsr_error_message := error_message deployment |}
  end.

(** One entry of the OpenAI-compatible model listing. *)
Record ModelEntry := mkModelEntry {
  me_id : string;
  me_created : datetime;
  me_owned_by : string;
  me_root : string
}.

(** [get_user_models]: the dependency [verify_api_key] is resolved before the
    body of the route runs. *)
Definition get_user_models (settings : Settings) (self : UserService)
    (uid : string) (credentials : option string) : HTTPResult (list ModelEntry) :=
  match verify_api_key settings self uid credentials with
  | HTTPException c d => HTTPException c d
  | Unhandled e => Unhandled e
  | Return _ =>
      match get_deployment self uid with
      | None => HTTPException 404 "User not found"
      | Some deployment =>
          if negb (bool_decide (status_value (status deployment) = "ready"))
          then HTTPException 503 "Model not ready"
          else
            Return [ {| me_id := model_name deployment;
                        me_created := created_at deployment;
                        me_owned_by := "user-" ++ uid;
                        me_root := model_name deployment |} ]
      end
  end.

(** [user_chat_completions] *)
Definition user_chat_completions (settings : Settings) (self : UserService)
    (uid : string) (messages : list ChatMessage) (credentials : option string)
    (generated : PyExc + string) : HTTPResult ChatCompletionResponse :=
  match verify_api_key settings self uid credentials with
  | HTTPException c d => HTTPException c d
  | Unhandled e => Unhandled e
  | Return _ =>
      match chat_completion self uid messages generated with
      | inr response => Return response
      | inl e =>
          if is_ValueError (exc_class e) then HTTPException 400 (exc_str e)
          else if is_Exception (exc_class e) then HTTPException 500 (exc_str e)
          else Unhandled e
      end
  end.

(* ===================================================================== *)
(** ** The process: services plus the event loop *)
(* ===================================================================== *)

(** The module-level singletons [settings], [user_service], [model_loader]
    and the load tasks that the event loop holds (created and not finished).
    The events below do not include the settings routes
    ([PUT /api/v1/settings] and its reset), which assign to [settings]: a
    reachable state is one of a run in which the settings stay as loaded. *)
Record World := mkWorld {
  settings : Settings;
  user_service : UserService;
  model_loader : ModelLoader;
  tasks : list LoadTask
}.

Definition init_world (st : Settings) : World :=
  mkWorld st UserService_init (mkModelLoader ∅) [].

(** What the event loop runs next: a request handler, or one segment of a
    background task ([TaskStart i]: task [i] runs up to its [await];
    [TaskResume i env now]: the awaited [load_model] call of task [i] finished).
    A task created by [asyncio.create_task] runs its first segment only when
    the event loop gets to it, so handlers of other requests may run before
    it.  The events also admit handlers between the two segments, as a loader
    that suspends at its [await] would; [load_model] as written blocks the
    event loop while it loads, so in the runs of the program [TaskResume i]
    follows [TaskStart i] at once, and these runs are among the schedules of
    the events.  The synchronous routes ([stop_deployment],
    [delete_deployment]) and [create_deployment] run to completion in one
    step. *)
Inductive Event :=
  | Deploy (request : ModelDeployRequest) (env : CreateEnv)
  | Stop (uid : string) (now : datetime)
  | Delete (uid : string) (now : datetime)
  | TaskStart (i : nat)
  | TaskResume (i : nat) (env : LoadEnv) (now : datetime).

Definition set_awaiting (t : LoadTask) : LoadTask :=
  mkLoadTask (task_user_id t) (task_model_name t) (task_backend t) true.

(** One step of the process.  [None]: the event cannot happen in this state
    (no such task, a task resumed before it started, or a [uuid4] string that
    is not 36 characters long). *)
Definition step (w : World) (ev : Event) : option World :=
  match ev with
  | Deploy request env =>
      if bool_decide (String.length (uuid4 env) = 36) then
        let '(svc, task, _) := deploy_model (settings w) env (user_service w) request in
        Some (mkWorld (settings w) svc (model_loader w) (tasks w ++ option_list task))
      else None
  | Stop uid now =>
      let '(loader, svc, _) := stop_deployment (model_loader w) (user_service w) uid now in
      Some (mkWorld (settings w) svc loader (tasks w))
  | Delete uid now =>
      let '(loader, svc, _) := delete_deployment (model_loader w) (user_service w) uid now in
      Some (mkWorld (settings w) svc loader (tasks w))
  | TaskStart i =>
      match tasks w !! i with
      | Some t =>
          if task_awaiting t then None
          else
            Some (mkWorld (settings w)
                    (_load_user_model_start (user_service w) (task_user_id t))
                    (model_loader w)
                    (<[i := set_awaiting t]> (tasks w)))
      | None => None
      end
  | TaskResume i env now =>
      match tasks w !! i with
      | Some t =>
          if task_awaiting t then
            let '(svc, _) :=
              _load_user_model_resume (user_service w) (task_user_id t)
                (load_model (task_backend t) env) now in
            Some (mkWorld (settings w) svc (model_loader w) (delete i (tasks w)))
          else None
      | None => None
      end
  end.

(** Running a schedule of events from a state. *)
Fixpoint run (w : World) (evs : list Event) : option World :=
  match evs with
  | [] => Some w
  | ev :: evs' =>
      match step w ev with
      | Some w' => run w' evs'
      | None => None
      end
  end.

(** The states the process can be in. *)
Inductive reachable : World → Prop :=
  | reachable_init st : reachable (init_world st)
  | reachable_step w ev w' : reachable w → step w ev = Some w' → reachable w'.

(** The load tasks of a user that the event loop still holds. *)
Definition loads_in_flight (uid : string) (w : World) : list LoadTask :=
  filter (λ t, task_user_id t = uid) (tasks w).

(** Observations of a reader. *)
Definition status_of (w : World) (uid : string) : option DeploymentStatus :=
  status <$> get_deployment (user_service w) uid.

Definition handle_of (w : World) (uid : string) : option ModelData :=
  get_user_model (user_service w) uid.

(* ===================================================================== *)
(** ** model_proxy_server.py: the single-file server *)
(* ===================================================================== *)

(** The earlier single-file server keeps its own registry in the module-level
    dictionaries [USER_DEPLOYMENTS] and [ACTIVE_MODELS]; a deployment there is
    a plain dictionary and its status a plain string. *)
Module ModelProxyServer.

Record Deployment := mkDeployment {
  model_name : string;
  backend : string;
  api_key : option string;
  api_key_enabled : bool;
  status : string;
  created_at : datetime;
  base_url : string;
  loaded_at : option datetime;
  error : option string
}.

Record Globals := mkGlobals {
  USER_DEPLOYMENTS : gmap string Deployment;
  ACTIVE_MODELS : gmap string ModelData
}.

(** [class ModelDeployRequest(BaseModel)] *)
Record ModelDeployRequest := mkModelDeployRequest {
  req_model_name : string;
  req_backend : string;
  req_api_key_enabled : bool;
  req_user_id : option string
}.

(** [get_external_ip] *)
Definition get_external_ip (env : CreateEnv) : string :=
  match metadata_ip env with
  | Some ip => ip
  | None => "34.44.140.182"
  end.

(** The body returned by [POST /deploy-model]. *)
Record DeployResponse := mkDeployResponse {
  dr_message : string;
  dr_user_id : string;
  dr_model_name : string;
  dr_backend : string;
  dr_api_key_enabled : bool
}.

(** [deploy_model]: returns the globals, the call handed to
    [background_tasks.add_task] and the response. *)
Definition deploy_model (env : CreateEnv) (g : Globals) (request : ModelDeployRequest)
  : Globals * (string * string * string) * DeployResponse :=
  let user_id := effective_user_id env (req_user_id request) in
  let api_key0 :=
    if req_api_key_enabled request then Some (generate_api_key env) else None in
  let entry :=
    {| model_name := req_model_name request;
       backend := req_backend request;
       api_key := api_key0;
       api_key_enabled := req_api_key_enabled request;
       status := "deploying";
       created_at := create_now env;
       base_url := "http://" ++ get_external_ip env ++ ":8000/user/" ++ user_id ++ "/v1";
       loaded_at := None;
       error := None |} in
  (mkGlobals (<[user_id := entry]> (USER_DEPLOYMENTS g)) (ACTIVE_MODELS g),
   (user_id, req_model_name request, req_backend request),
   {| dr_message := "Deploying model " ++ req_model_name request;
      dr_user_id := user_id;
      dr_model_name := req_model_name request;
      dr_backend := req_backend request;
      dr_api_key_enabled := req_api_key_enabled request |}).

(** [str(KeyError(k))] *)
Definition key_error (k : string) : PyExc := mkPyExc KeyErrorCls ("'" ++ k ++ "'").

(** The [except Exception as e] clause of [load_user_model]; subscripting
    [USER_DEPLOYMENTS] with an unknown key raises [KeyError] out of it. *)
Definition load_user_model_except (g : Globals) (user_id : string) (e : PyExc)
  : Globals * option PyExc :=
  match USER_DEPLOYMENTS g !! user_id with
  | Some d =>
      let d := mkDeployment (model_name d) (backend d) (api_key d)
                 (api_key_enabled d) "error" (created_at d) (base_url d)
                 (loaded_at d) (Some (exc_str e)) in
      (mkGlobals (<[user_id := d]> (USER_DEPLOYMENTS g)) (ACTIVE_MODELS g), None)
  | None => (g, Some (key_error user_id))
  end.

(** [load_user_model], from the point where [await load_model_async(...)]
    returns [model_data] or raises. *)
Definition load_user_model (g : Globals) (user_id : string)
    (awaited : PyExc + ModelData) (now : datetime) : Globals * option PyExc :=
  match awaited with
  | inr model_data =>
      let active := <[user_id := model_data]> (ACTIVE_MODELS g) in
      match USER_DEPLOYMENTS g !! user_id with
      | Some d =>
          let d := mkDeployment (model_name d) (backend d) (api_key d)
                     (api_key_enabled d) "ready" (created_at d) (base_url d)
                     (Some now) (error d) in
          (mkGlobals (<[user_id := d]> (USER_DEPLOYMENTS g)) active, None)
      | None =>
          load_user_model_except (mkGlobals (USER_DEPLOYMENTS g) active)
            user_id (key_error user_id)
      end
  | inl e =>
      if is_Exception (exc_class e) then load_user_model_except g user_id e
      else (g, Some e)
  end.


End ModelProxyServer.

(* ===================================================================== *)
(** ** Specification-level definitions *)
(* ===================================================================== *)

(** What every state of the registry satisfies: a record is stored under its
    own [user_id], no record is stored under the empty identifier, a READY
    record has a loaded model, and no record is PENDING. *)
Record registry_inv (self : UserService) : Prop := mk_registry_inv {
  inv_keyed : ∀ k d, deployments self !! k = Some d → user_id d = k;
  inv_nonempty : deployments self !! "" = None;
  inv_ready_handle :
    ∀ k d, deployments self !! k = Some d → status d = READY →
           is_Some (active_models self !! k);
  inv_no_pending : ∀ k d, deployments self !! k = Some d → status d ≠ PENDING
}.

(** The key stored for a user, if any. *)
Definition stored_api_key (self : UserService) (uid : string) : option string :=
  get_deployment self uid ≫= api_key.

(** The Auth Gate's [validate] as the specification words it: true when
    authentication is disabled system-wide or the deployment has
    [api_key_enabled = false]; otherwise true exactly when the presented key
    equals the stored key. *)
Definition validate_as_specified (st : Settings) (self : UserService)
    (uid : string) (presented : option string) : bool :=
  if negb (enable_auth st) then true
  else
    match get_deployment self uid with
    | Some d =>
        if negb (api_key_enabled d) then true
        else bool_decide (stored_api_key self uid = presented)
    | None => bool_decide (stored_api_key self uid = presented)
    end.

(** The presented bearer credential is the deployment's key. *)
Definition credential_matches (d : UserDeployment) (credentials : option string) : bool :=
  match credentials with
  | Some k => bool_decide (api_key d = Some k)
  | None => false
  end.

(** A deployment whose tenant routes demand a credential. *)
Definition key_required (st : Settings) (d : UserDeployment) : bool :=
  enable_auth st && api_key_enabled d.

(** The events that can set each status. *)
Definition sets_status (ev : Event) (uid : string) (s : DeploymentStatus) : Prop :=
  match s with
  | PENDING => False
  | DEPLOYING => (∃ request env, ev = Deploy request env) ∨ (∃ i, ev = TaskStart i)
  | READY | ERROR => ∃ i env now, ev = TaskResume i env now
  | STOPPED => ∃ now, ev = Stop uid now
  end.

(** The segments of a load task that have not run yet. *)
Definition remaining_segments (t : LoadTask) (i : nat) (env : LoadEnv)
    (now : datetime) : list Event :=
  if task_awaiting t then [TaskResume i env now]
  else [TaskStart i; TaskResume i env now].

(* ===================================================================== *)
(** ** Example deployments and schedules *)
(* ===================================================================== *)

Module Examples.

Definition env_a : CreateEnv :=
  mkCreateEnv "123e4567-e89b-12d3-a456-426614174000" "Zm9vYmFy" None 5.

Definition env_b : CreateEnv :=
  mkCreateEnv "9b2e4c1a-77d0-4f6e-8a3b-5c0d1e2f3a4b" "YmF6cXV4"
              (Some "34.44.140.182") 9.

(** A deploy request for user [u] and model [m]. *)
Definition request (u m : string) (enabled : bool) : ModelDeployRequest :=
  mkModelDeployRequest m TRANSFORMERS enabled (Some u) None.

Definition gpt2_data : ModelData :=
  mkModelData 1 TRANSFORMERS "text-generation" "ready" 7.

(** The runtime loads the model. *)
Definition load_ok : LoadEnv := mkLoadEnv None (inr gpt2_data).

(** The runtime rejects the model name. *)
Definition rejected : PyExc :=
  mkPyExc OSErrorCls "no-such-model is not a valid model identifier".

Definition load_rejected : LoadEnv := mkLoadEnv None (inl rejected).

Definition auth_off : Settings :=
  {| port := 8000; api_key_length := 32; enable_auth := false |}.

(** The state a schedule leads to from the initial state. *)
Definition after (st : Settings) (evs : list Event) : World :=
  default (init_world st) (run (init_world st) evs).

(** A user's model deployed and loaded. *)
Definition deploy_and_load (u m : string) (enabled : bool) : list Event :=
  [Deploy (request u m enabled) env_a; TaskStart 0; TaskResume 0 load_ok 8].

Definition hello : list ChatMessage := [mkChatMessage "user" "Say hello"].

End Examples.

(* ===================================================================== *)
(** ** Further code of the services and routes *)
(* ===================================================================== *)

(** [UserService.get_stats] *)
Record Stats := mkStats {
  total_deployments : nat;
  active_deployments : nat;
  error_deployments : nat;
  stats_active_models : nat;
  unique_users : nat
}.

(** [sum(1 for d in self.deployments.values() if d.status == s)] *)
Definition count_status (s : DeploymentStatus) (self : UserService) : nat :=
  length (filter (λ d, status d = s) (list_deployments self)).

Definition get_stats (self : UserService) : Stats :=
  {| total_deployments := size (deployments self);
     active_deployments := count_status READY self;
     error_deployments := count_status ERROR self;
     stats_active_models := size (active_models self);
     unique_users :=
       size (list_to_set (user_id <$> list_deployments self) : gset string) |}.

(** [ModelLoader.get_model] *)
Definition get_model (self : ModelLoader) (model_key : string) : option ModelData :=
  loaded_models self !! model_key.

(** [ModelLoader.list_loaded_models] *)
Definition list_loaded_models (self : ModelLoader) : list string :=
  (map_to_list (loaded_models self)).*1.

(** The admin routes of [app.py] that share their names with the methods of
    [UserService] they call. *)
Module App.

(** [stop_deployment]: [POST /api/v1/deployments/{user_id}/stop] *)
Definition stop_deployment (loader : ModelLoader) (self : UserService)
    (uid : string) (now : datetime) : ModelLoader * UserService * HTTPResult string :=
  let '(loader', self', stopped) := stop_deployment loader self uid now in
  (loader', self',
   if stopped then Return ("Deployment for user " ++ uid ++ " stopped")
   else HTTPException 404 "User deployment not found").

(** [delete_deployment]: [DELETE /api/v1/deployments/{user_id}] *)
Definition delete_deployment (loader : ModelLoader) (self : UserService)
    (uid : string) (now : datetime) : ModelLoader * UserService * HTTPResult string :=
  let '(loader', self', deleted) := delete_deployment loader self uid now in
  (loader', self',
   if deleted then Return ("Deployment for user " ++ uid ++ " deleted")
   else HTTPException 404 "User deployment not found").

End App.

(** The user an event operates on. *)
Definition event_user (w : World) (ev : Event) : option string :=
  match ev with
  | Deploy request env => Some (effective_user_id env (req_user_id request))
  | Stop uid _ | Delete uid _ => Some uid
  | TaskStart i | TaskResume i _ _ => task_user_id <$> tasks w !! i
  end.

(** The fields of a record that say what is deployed for whom and how it is
    reached: everything but the status, the timestamps of later changes and
    the error message. *)
Definition binding (d : UserDeployment)
  : string * string * ModelBackend * option string * bool * string * datetime
    * gmap string string :=
  (user_id d, model_name d, backend d, api_key d, api_key_enabled d, base_url d,
   created_at d, custom_config d).

(** What one message adds to [len(prompt.split())]: its role label and the
    words of its content; a message whose role is none of the three adds
    nothing. *)
Definition message_tokens (m : ChatMessage) : nat :=
  if bool_decide (role m = "system") || bool_decide (role m = "user")
     || bool_decide (role m = "assistant")
  then S (split_len (content m)) else 0.

(** The single-file server as a process: its globals and the calls handed to
    [background_tasks.add_task] that have not run yet.  [load_user_model]
    does nothing before its [await] but log, so a task is one event, at the
    point where the awaited call returns or raises. *)
Module ModelProxyServerProcess.

Record World := mkWorld {
  globals : ModelProxyServer.Globals;
  background_tasks : list (string * string * string)
}.

Definition init_world : World :=
  mkWorld (ModelProxyServer.mkGlobals ∅ ∅) [].

Inductive Event :=
  | DeployModel (request : ModelProxyServer.ModelDeployRequest) (env : CreateEnv)
  | RunTask (i : nat) (awaited : PyExc + ModelData) (now : datetime).

Definition step (w : World) (ev : Event) : option World :=
  match ev with
  | DeployModel request env =>
      if bool_decide (String.length (uuid4 env) = 36) then
        let '(g, task, _) := ModelProxyServer.deploy_model env (globals w) request in
        Some (mkWorld g (background_tasks w ++ [task]))
      else None
  | RunTask i awaited now =>
      match background_tasks w !! i with
      | Some (user_id, _, _) =>
          let '(g, _) :=
            ModelProxyServer.load_user_model (globals w) user_id awaited now in
          Some (mkWorld g (delete i (background_tasks w)))
      | None => None
      end
  end.

Fixpoint run (w : World) (evs : list Event) : option World :=
  match evs with
  | [] => Some w
  | ev :: evs' =>
      match step w ev with
      | Some w' => run w' evs'
      | None => None
      end
  end.

Inductive reachable : World → Prop :=
  | reachable_init : reachable init_world
  | reachable_step w ev w' : reachable w → step w ev = Some w' → reachable w'.

(** The state a schedule leads to from the initial state. *)
Definition after (evs : list Event) : World :=
  default init_world (run init_world evs).

(** One entry of the model listing of the single-file server. *)
Record ModelEntry := mkModelEntry {
  me_id : string;
  me_created : datetime;
  me_owned_by : string
}.

(** [get_user_models]; [now] is [int(time.time())]. *)
Definition get_user_models (g : ModelProxyServer.Globals) (user_id : string)
    (now : datetime) : HTTPResult (list ModelEntry) :=
  match ModelProxyServer.USER_DEPLOYMENTS g !! user_id with
  | None => HTTPException 404 "User not found"
  | Some deployment =>
      if negb (bool_decide (ModelProxyServer.status deployment = "ready"))
      then HTTPException 503 "Model not ready"
      else Return [ {| me_id := ModelProxyServer.model_name deployment;
                       me_created := now;
                       me_owned_by := "user-" ++ user_id |} ]
  end.

End ModelProxyServerProcess.

(* ===================================================================== *)
(** ** services/model_service.py: compatibility check and model search *)
(* ===================================================================== *)

(** [str.lower] on ASCII text. *)
Definition ascii_lower (a : Ascii.ascii) : Ascii.ascii :=
  let n := Ascii.nat_of_ascii a in
  if Nat.leb 65 n && Nat.leb n 90 then Ascii.ascii_of_nat (n + 32) else a.

Fixpoint lower (s : string) : string :=
  match s with
  | EmptyString => EmptyString
  | String a rest => String (ascii_lower a) (lower rest)
  end.

(** [sub in s] *)
Fixpoint contains (sub s : string) : bool :=
  String.prefix sub s
  || match s with
     | EmptyString => false
     | String _ rest => contains sub rest
     end.

(** What [getattr(obj, name, default)] finds: no such attribute, an attribute
    that is [None], or a value. *)
Inductive Attr (A : Type) :=
  | Missing
  | IsNone
  | Value (a : A).
Arguments Missing {A}.
Arguments IsNone {A}.
Arguments Value {A} a.

(** The attributes of the Hub's model description that the service reads. *)
Record HubModelInfo := mkHubModelInfo {
  hub_tags : Attr (list string);
  hub_library_name : Attr string;
  hub_pipeline_tag : Attr string
}.

(** The exceptions [is_compatible] can raise: [TypeError] when it iterates
    over tags that are [None], [AttributeError] when it calls [.lower()] on a
    library name that is [None]. *)
Inductive CheckRaised := TagsNotIterable | LibraryNameHasNoLower.

(** [ModelCompatibilityChecker.INCOMPATIBLE_TAGS] and
    [INCOMPATIBLE_LIBRARIES]; membership and [any] do not depend on the order. *)
Definition INCOMPATIBLE_TAGS : list string :=
  ["mlx"; "gguf"; "onnx"; "openvino"; "tensorrt"].

Definition INCOMPATIBLE_LIBRARIES : list string := ["mlx"; "gguf"; "onnx"].

(** [any(incomp in tag.lower() for incomp in cls.INCOMPATIBLE_TAGS)] *)
Definition has_incompatible_marker (tag : string) : bool :=
  existsb (λ incomp, contains incomp (lower tag)) INCOMPATIBLE_TAGS.

(** [x in xs] for a list of strings. *)
Definition str_in (x : string) (xs : list string) : bool :=
  existsb (String.eqb x) xs.

(** [getattr(obj, name, default)] *)
Definition getattr {A} (a : Attr A) (default : A) : Attr A :=
  match a with
  | Missing => Value default
  | other => other
  end.

(** [ModelCompatibilityChecker.is_compatible] *)
Definition is_compatible (model_info : HubModelInfo) : CheckRaised + bool * string :=
  let tags := getattr (hub_tags model_info) [] in
  let library_name := getattr (hub_library_name model_info) "" in
  match tags with
  | Value tags =>
      match find has_incompatible_marker tags with
      | Some tag => inr (false, "Incompatible format: " ++ tag)
      | None =>
          match library_name with
          | Value library_name =>
              if str_in (lower library_name) INCOMPATIBLE_LIBRARIES
              then inr (false, "Incompatible library: " ++ library_name)
              else if existsb (contains "bit") tags && str_in "mlx" tags
              then inr (false, "MLX quantized model not supported")
              else inr (true, "Compatible")
          | _ => inl LibraryNameHasNoLower
          end
      end
  | _ => inl TagsNotIterable
  end.

(** One entry of the response of the Hub's search API: a field that is
    present holds a value of its type; [None] stands for an absent key (for
    the description also for [null]). *)
Record RawModel := mkRawModel {
  raw_id : option string;
  raw_downloads : option Z;
  raw_likes : option Z;
  raw_tags : option (list string);
  raw_description : option string
}.

(** [class ModelInfo(BaseModel)] of [models.py] *)
Record ModelInfo := mkModelInfo {
  mi_id : string;
  mi_name : string;
  mi_downloads : Z;
  mi_likes : Z;
  mi_tags : list string;
  mi_description : string;
  mi_pipeline_tag : option string;
  mi_library_name : option string;
  mi_compatible : bool;
  mi_compatibility_reason : option string
}.

(** [s[:n]] on ASCII text. *)
Fixpoint str_take (n : nat) (s : string) : string :=
  match n, s with
  | S n', String a rest => String a (str_take n' rest)
  | _, _ => EmptyString
  end.

(** The [description] argument of [ModelInfo(...)] in [_process_model_info]:
    [(d or "")[:200] + "..." if d else ""]. *)
Definition shown_description (description : option string) : string :=
  match description with
  | None | Some EmptyString => ""
  | Some d => str_take 200 d ++ "..."
  end.

(** [getattr(model_info, name, None)] as an optional value. *)
Definition attr_or_none {A} (a : Attr A) : option A :=
  match a with
  | Value v => Some v
  | _ => None
  end.

(** [ModelSearchService._process_model_info].  [looked_up] is what
    [self.api.model_info(id)] returns or raises; any [Exception] in the lookup
    or in the check is caught.  [model_info] is bound (and its attributes are
    read) exactly when the lookup returned. *)
Definition _process_model_info (model_data : RawModel)
    (looked_up : PyExc + HubModelInfo) : PyExc + ModelInfo :=
  let checked : PyExc + bool * string :=
    match looked_up with
    | inl e =>
        if is_Exception (exc_class e)
        then inr (true, "Unable to verify compatibility")
        else inl e
    | inr model_info =>
        match is_compatible model_info with
        | inr r => inr r
        | inl _ => inr (true, "Unable to verify compatibility")
        end
    end in
  match checked with
  | inl e => inl e
  | inr (compatible, reason) =>
      inr {| mi_id := default "" (raw_id model_data);
             mi_name := default "" (raw_id model_data);
             mi_downloads := default 0%Z (raw_downloads model_data);
             mi_likes := default 0%Z (raw_likes model_data);
             mi_tags := default [] (raw_tags model_data);
             mi_description := shown_description (raw_description model_data);
             mi_pipeline_tag :=
               match looked_up with
               | inr model_info => attr_or_none (hub_pipeline_tag model_info)
               | inl _ => None
               end;
             mi_library_name :=
               match looked_up with
               | inr model_info => attr_or_none (hub_library_name model_info)
               | inl _ => None
               end;
             mi_compatible := compatible;
             mi_compatibility_reason := if compatible then None else Some reason |}
  end.

(** [ModelSearchService._get_fallback_models] *)
Definition _get_fallback_models : list ModelInfo :=
  [ mkModelInfo "gpt2" "gpt2" 1000000 500 ["text-generation"]
      "GPT-2 is a transformers model pretrained on a very large corpus of English data"
      None None true None;
    mkModelInfo "microsoft/DialoGPT-medium" "microsoft/DialoGPT-medium" 500000 200
      ["conversational"] "Large-scale pretraining for dialogue generation"
      None None true None;
    mkModelInfo "google/flan-t5-base" "google/flan-t5-base" 300000 150
      ["text2text-generation"] "FLAN-T5 Base model for instruction following"
      None None true None;
    mkModelInfo "distilgpt2" "distilgpt2" 150000 80 ["text-generation"]
      "Distilled version of GPT-2" None None true None ].

(** [f"{flag}"] for a [bool]. *)
Definition bool_str (b : bool) : string := if b then "True" else "False".

(** [cache_key = f"{query}:{limit}:{filter_compatible}"] *)
Definition cache_key (query : string) (limit : Z) (filter_compatible : bool) : string :=
  query ++ ":" ++ pretty limit ++ ":" ++ bool_str filter_compatible.

(** [ModelSearchService]: the cache maps a key to the cached models and the
    time they were stored. *)
Record ModelSearchService := mkModelSearchService {
  cache : gmap string (list ModelInfo * nat)
}.

(** What one call of [search_models] meets outside the process. *)
Record SearchEnv := mkSearchEnv {
  cache_fresh : bool;
      (* the float comparison time.time() - timestamp < self.cache_ttl *)
  fetched : PyExc + list (RawModel * (PyExc + HubModelInfo));
      (* _fetch_models: raises, or the entries, each with the outcome of the
         Hub lookup that _process_model_info makes for it *)
  stored_at : nat
      (* time.time() when the results are cached *)
}.

(** The loop of [search_models] over the fetched entries. *)
Fixpoint process_models (filter_compatible : bool)
    (models : list (RawModel * (PyExc + HubModelInfo))) : PyExc + list ModelInfo :=
  match models with
  | [] => inr []
  | (model, looked_up) :: rest =>
      match _process_model_info model looked_up with
      | inl e => inl e
      | inr model_info =>
          match process_models filter_compatible rest with
          | inl e => inl e
          | inr processed =>
              if filter_compatible && negb (mi_compatible model_info)
              then inr processed
              else inr (model_info :: processed)
          end
      end
  end.

(** [ModelSearchService.search_models].  The last component is the exception
    that leaves the call, if any. *)
Definition search_models (env : SearchEnv) (self : ModelSearchService)
    (query : string) (limit : Z) (filter_compatible : bool)
  : ModelSearchService * (PyExc + list ModelInfo) :=
  let key := cache_key query limit filter_compatible in
  let miss :=
    let outcome :=
      match fetched env with
      | inl e => inl e
      | inr models => process_models filter_compatible models
      end in
    match outcome with
    | inr processed_models =>
        (mkModelSearchService (<[key := (processed_models, stored_at env)]> (cache self)),
         inr processed_models)
    | inl e =>
        if is_Exception (exc_class e) then (self, inr _get_fallback_models)
        else (self, inl e)
    end in
  match cache self !! key with
  | Some (cached_data, _) =>
      if cache_fresh env then (self, inr cached_data) else miss
  | None => miss
  end.

(** The search route of [app.py], which shares its name with the method it
    calls: [POST /api/v1/search-models]. *)
Module SearchRoute.

Definition search_models (env : SearchEnv) (self : ModelSearchService)
    (query : string) (limit : Z) (filter_compatible : bool)
  : ModelSearchService * HTTPResult (list ModelInfo) :=
  match search_models env self query limit filter_compatible with
  | (self', inr models) => (self', Return models)
  | (self', inl e) =>
      if is_Exception (exc_class e) then (self', HTTPException 500 (exc_str e))
      else (self', Unhandled e)
  end.

End SearchRoute.

(** The states of the search service: the empty cache, and what calls of
    [search_models] make of it. *)
Inductive search_reachable : ModelSearchService → Prop :=
  | search_reachable_init : search_reachable (mkModelSearchService ∅)
  | search_reachable_call env self query limit filter_compatible :
      search_reachable self →
      search_reachable (search_models env self query limit filter_compatible).1.

(* ===================================================================== *)
(** ** services/inference_service.py: the generation helpers *)
(* ===================================================================== *)

(** [s.split(sep)] for a non-empty [sep]: the pieces between the occurrences
    of [sep], found from the left without overlap.  [skip] counts the
    characters of a found occurrence that are still to be passed. *)
Fixpoint split_from (sep : string) (skip : nat) (s : string) : list string :=
  match s with
  | EmptyString => [EmptyString]
  | String a rest =>
      match skip with
      | S k => split_from sep k rest
      | O =>
          if String.prefix sep s
          then EmptyString :: split_from sep (String.length sep - 1) rest
          else match split_from sep 0 rest with
               | piece :: pieces => String a piece :: pieces
               | [] => [String a EmptyString]
               end
      end
  end.

(** [s.split(sep)]: [ValueError("empty separator")] for the empty string. *)
Definition str_split (sep s : string) : PyExc + list string :=
  if bool_decide (sep = "") then inl (mkPyExc ValueErrorCls "empty separator")
  else inr (split_from sep 0 s).

(** [s.strip()] on ASCII text. *)
Fixpoint lstrip (s : string) : string :=
  match s with
  | EmptyString => EmptyString
  | String a rest => if is_space a then lstrip rest else s
  end.

Fixpoint rstrip (s : string) : string :=
  match s with
  | EmptyString => EmptyString
  | String a rest =>
      match rstrip rest with
      | EmptyString => if is_space a then EmptyString else String a EmptyString
      | kept => String a kept
      end
  end.

Definition strip (s : string) : string := rstrip (lstrip s).

(** The loop over the stop sequences in [run_inference]: the first sequence
    that occurs in the text cuts it, and the loop ends there. *)
Fixpoint apply_stop (stop : list string) (generated_text : string) : PyExc + string :=
  match stop with
  | [] => inr generated_text
  | stop_seq :: rest =>
      if contains stop_seq generated_text then
        match str_split stop_seq generated_text with
        | inl e => inl e
        | inr pieces => inr (List.hd "" pieces)
        end
      else apply_stop rest generated_text
  end.

(** [InferenceService._generate_causal_lm].  [pipeline_result] is what the
    pipeline call yields as [result[0]["generated_text"]], or the exception
    it raises. *)
Definition _generate_causal_lm (pipeline_result : PyExc + string)
    (stop : option (list string)) : PyExc + string :=
  match pipeline_result with
  | inl e => inl e
  | inr generated_text =>
      let stopped :=
        match stop with
        | None | Some [] => inr generated_text
        | Some stop => apply_stop stop generated_text
        end in
      match stopped with
      | inl e => inl e
      | inr response =>
          let extracted :=
            if contains "Assistant:" response then
              match str_split "Assistant:" response with
              | inl e => inl e
              | inr pieces => inr (List.last pieces "")
              end
            else inr response in
          match extracted with
          | inl e => inl e
          | inr response => inr (strip response)
          end
      end
  end.

(** [InferenceService._generate_text2text] *)
Definition _generate_text2text (pipeline_result : PyExc + string) : PyExc + string :=
  match pipeline_result with
  | inl e => inl e
  | inr response => inr (strip response)
  end.

(** The generation call of [chat_completion]: by the task of the loaded
    model. *)
Definition response_text (model_data : ModelData) (pipeline_result : PyExc + string)
    (stop : option (list string)) : PyExc + string :=
  if bool_decide (md_task model_data = "text2text-generation")
  then _generate_text2text pipeline_result
  else _generate_causal_lm pipeline_result stop.

(* ===================================================================== *)
(** ** Proof automation *)
(* ===================================================================== *)

Ltac on_key :=
  rewrite ?lookup_insert, ?lookup_delete;
  repeat case_decide; intros; simplify_eq /=;
  rewrite ?lookup_insert_eq, ?lookup_insert_ne, ?lookup_delete_ne by done;
  try done; eauto; try congruence.

Ltac split_inv :=
  constructor; simpl;
  [ intros ?k ?d | | intros ?k ?d | intros ?k ?d ]; on_key.

(** Evaluate a closed statement about an example schedule. *)
Ltac by_evaluation := vm_compute; repeat split; try reflexivity; eauto.

(* ===================================================================== *)
(** ** The registry invariants hold in every reachable state *)
(* ===================================================================== *)

Lemma effective_user_id_supplied env u :
  u ≠ "" → effective_user_id env (Some u) = u.
Proof.
  intros Hu. unfold effective_user_id, falsy_str.
  rewrite bool_decide_eq_false_2; done.
Qed.

Lemma effective_user_id_nonempty env user_id0 :
  String.length (uuid4 env) = 36 → effective_user_id env user_id0 ≠ "".
Proof.
  intros Hlen. unfold effective_user_id, falsy_str, generate_user_id.
  destruct user_id0 as [u|]; simpl.
  - case_bool_decide as Hu; [|exact Hu].
    intros Heq. rewrite Heq in Hlen. discriminate.
  - intros Heq. rewrite Heq in Hlen. discriminate.
Qed.

Section invariant_preservation.
Context (self : UserService) (Hinv : registry_inv self).

Lemma create_deployment_inv st env model_name0 backend0 enabled0 user_id0 cfg0 :
  effective_user_id env user_id0 ≠ "" →
  registry_inv
    (create_deployment st env self model_name0 backend0 enabled0 user_id0 cfg0).1.1.
Proof using Hinv.
  intros Hne. unfold create_deployment.
  set (uid := effective_user_id env user_id0) in *.
  assert (Hfresh : ∀ d, status d = DEPLOYING → user_id d = uid →
            registry_inv (mkUserService (<[uid:=d]> (deployments self))
                                        (active_models self))).
  { intros d0 Hst Hid. destruct Hinv as [Hk Hn Hr Hp]. split_inv. }
  destruct (deployments self !! uid) as [existing|] eqn:Hex.
  - destruct (returns_existing _ _); simpl; [exact Hinv | by apply Hfresh].
  - simpl. by apply Hfresh.
Qed.

Lemma _load_user_model_start_inv uid :
  registry_inv (_load_user_model_start self uid).
Proof using Hinv.
  unfold _load_user_model_start.
  destruct (deployments self !! uid) as [d0|] eqn:Hd; [|exact Hinv].
  destruct Hinv as [Hk Hn Hr Hp]. split_inv.
Qed.

Lemma _load_user_model_resume_inv uid awaited now :
  registry_inv (_load_user_model_resume self uid awaited now).1.
Proof using Hinv.
  unfold _load_user_model_resume.
  destruct Hinv as [Hk Hn Hr Hp].
  destruct awaited as [e|md].
  - destruct (is_Exception (exc_class e)); [|exact Hinv].
    destruct (deployments self !! uid) as [d0|] eqn:Hd; [|exact Hinv].
    simpl. split_inv.
  - destruct (deployments self !! uid) as [d0|] eqn:Hd; simpl; split_inv.
Qed.

Lemma stop_deployment_inv loader uid now :
  registry_inv (stop_deployment loader self uid now).1.2.
Proof using Hinv.
  unfold stop_deployment.
  destruct Hinv as [Hk Hn Hr Hp].
  destruct (deployments self !! uid) as [d0|] eqn:Hd; [|exact Hinv].
  destruct (active_models self !! uid) as [md|] eqn:Hm; simpl; split_inv.
Qed.

Lemma delete_deployment_inv loader uid now :
  registry_inv (delete_deployment loader self uid now).1.2.
Proof using Hinv.
  unfold delete_deployment.
  destruct (deployments self !! uid) as [d0|] eqn:Hd; [|exact Hinv].
  pose proof (stop_deployment_inv loader uid now) as Hstop.
  destruct (stop_deployment loader self uid now) as [[loader' self'] b].
  simpl in *. destruct Hstop as [Hk Hn Hr Hp]. split_inv.
Qed.

End invariant_preservation.

Lemma UserService_init_inv : registry_inv UserService_init.
Proof. constructor; simpl; intros *; rewrite ?lookup_empty; done. Qed.

(** Case analysis on a step: what the event did to the services. *)
Lemma step_cases w ev w' :
  step w ev = Some w' →
  match ev with
  | Deploy request env =>
      String.length (uuid4 env) = 36 ∧
      user_service w' =
        (create_deployment (settings w) env (user_service w)
           (req_model_name request) (req_backend request)
           (req_api_key_enabled request) (req_user_id request)
           (req_custom_config request)).1.1
  | Stop uid now =>
      user_service w' =
        (stop_deployment (model_loader w) (user_service w) uid now).1.2
  | Delete uid now =>
      user_service w' =
        (delete_deployment (model_loader w) (user_service w) uid now).1.2
  | TaskStart i =>
      ∃ t, tasks w !! i = Some t ∧ task_awaiting t = false ∧
           user_service w' = _load_user_model_start (user_service w) (task_user_id t)
  | TaskResume i env now =>
      ∃ t, tasks w !! i = Some t ∧ task_awaiting t = true ∧
           user_service w' =
             (_load_user_model_resume (user_service w) (task_user_id t)
                (load_model (task_backend t) env) now).1
  end.
Proof.
  intros Hstep. destruct ev as [request env|uid now|uid now|i|i env now];
    simpl in Hstep.
  - case_bool_decide as Hlen; [|done]. split; [done|].
    unfold deploy_model in Hstep.
    destruct (create_deployment _ _ _ _ _ _ _ _) as [[svc task] dep].
    by simplify_eq /=.
  - destruct (stop_deployment _ _ _ _) as [[loader svc] b]. by simplify_eq /=.
  - destruct (delete_deployment _ _ _ _) as [[loader svc] b]. by simplify_eq /=.
  - destruct (tasks w !! i) as [t|]; [|done].
    destruct (task_awaiting t) eqn:Ha; [done|]. simplify_eq /=. eauto.
  - destruct (tasks w !! i) as [t|]; [|done].
    destruct (task_awaiting t) eqn:Ha; [|done].
    destruct (_load_user_model_resume _ _ _ _) as [svc raised] eqn:Hr.
    simplify_eq /=. exists t. by rewrite Hr.
Qed.

Lemma step_inv w ev w' :
  registry_inv (user_service w) → step w ev = Some w' →
  registry_inv (user_service w').
Proof.
  intros Hinv Hstep. apply step_cases in Hstep.
  destruct ev as [request env|uid now|uid now|i|i env now].
  - destruct Hstep as [Hlen ->].
    apply create_deployment_inv; [done|by apply effective_user_id_nonempty].
  - rewrite Hstep. by apply stop_deployment_inv.
  - rewrite Hstep. by apply delete_deployment_inv.
  - destruct Hstep as (t & _ & _ & ->). by apply _load_user_model_start_inv.
  - destruct Hstep as (t & _ & _ & ->). by apply _load_user_model_resume_inv.
Qed.

Lemma reachable_inv w : reachable w → registry_inv (user_service w).
Proof.
  induction 1 as [st|w ev w' _ IH Hstep].
  - apply UserService_init_inv.
  - by eapply step_inv.
Qed.

Lemma run_reachable w evs w' : reachable w → run w evs = Some w' → reachable w'.
Proof.
  revert w. induction evs as [|ev evs IH]; intros w Hw Hrun; simpl in Hrun.
  - by simplify_eq.
  - destruct (step w ev) as [w1|] eqn:Hstep; [|done].
    eapply IH; [|exact Hrun]. by eapply reachable_step.
Qed.

Lemma after_reachable st evs :
  is_Some (run (init_world st) evs) → reachable (Examples.after st evs).
Proof.
  intros [w Hw]. unfold Examples.after. rewrite Hw. simpl.
  eapply run_reachable; [apply reachable_init|exact Hw].
Qed.

(* ===================================================================== *)
(** ** What each operation does at the key it is called with *)
(* ===================================================================== *)

Lemma run_cons w ev evs w' :
  step w ev = Some w' → run w (ev :: evs) = run w' evs.
Proof. intros Hstep. simpl. by rewrite Hstep. Qed.

Lemma step_Stop_eq w uid now :
  step w (Stop uid now) =
  Some (mkWorld (settings w)
          (stop_deployment (model_loader w) (user_service w) uid now).1.2
          (stop_deployment (model_loader w) (user_service w) uid now).1.1
          (tasks w)).
Proof. simpl. by destruct (stop_deployment _ _ _ _) as [[loader svc] b]. Qed.

Lemma step_TaskStart_eq w i t :
  tasks w !! i = Some t → task_awaiting t = false →
  step w (TaskStart i) =
  Some (mkWorld (settings w)
          (_load_user_model_start (user_service w) (task_user_id t))
          (model_loader w) (<[i := set_awaiting t]> (tasks w))).
Proof. intros Ht Ha. simpl. by rewrite Ht, Ha. Qed.

Lemma step_TaskResume_eq w i t env now :
  tasks w !! i = Some t → task_awaiting t = true →
  step w (TaskResume i env now) =
  Some (mkWorld (settings w)
          (_load_user_model_resume (user_service w) (task_user_id t)
             (load_model (task_backend t) env) now).1
          (model_loader w) (delete i (tasks w))).
Proof.
  intros Ht Ha. simpl. rewrite Ht, Ha.
  by destruct (_load_user_model_resume _ _ _ _) as [svc raised].
Qed.

Lemma stop_deployment_at loader self uid now d :
  deployments self !! uid = Some d →
  deployments (stop_deployment loader self uid now).1.2 !! uid
    = Some (with_updated_at now (with_status STOPPED d)) ∧
  active_models (stop_deployment loader self uid now).1.2 !! uid = None ∧
  (stop_deployment loader self uid now).2 = true.
Proof.
  intros Hd. unfold stop_deployment. rewrite Hd.
  destruct (active_models self !! uid) as [md|] eqn:Hm; simpl;
    rewrite lookup_insert_eq, ?lookup_delete_eq; done.
Qed.

Lemma _load_user_model_start_at self uid d :
  deployments self !! uid = Some d →
  deployments (_load_user_model_start self uid) !! uid
    = Some (with_status DEPLOYING d) ∧
  active_models (_load_user_model_start self uid) = active_models self.
Proof.
  intros Hd. unfold _load_user_model_start. rewrite Hd. simpl.
  by rewrite lookup_insert_eq.
Qed.

Lemma _load_user_model_resume_loaded self uid model_data now d :
  deployments self !! uid = Some d →
  let r := _load_user_model_resume self uid (inr model_data) now in
  deployments r.1 !! uid
    = Some (with_updated_at now (with_loaded_at now (with_status READY d))) ∧
  active_models r.1 !! uid = Some model_data ∧
  r.2 = None.
Proof.
  intros Hd. unfold _load_user_model_resume. rewrite Hd. simpl.
  by rewrite !lookup_insert_eq.
Qed.

Lemma _load_user_model_resume_failed self uid e now d :
  deployments self !! uid = Some d → is_Exception (exc_class e) = true →
  let r := _load_user_model_resume self uid (inl e) now in
  deployments r.1 !! uid
    = Some (with_updated_at now (with_error_message (exc_str e) (with_status ERROR d))) ∧
  active_models r.1 = active_models self ∧
  r.2 = None.
Proof.
  intros Hd He. unfold _load_user_model_resume. rewrite He, Hd. simpl.
  by rewrite lookup_insert_eq.
Qed.

Lemma returns_existing_true existing model_name0 :
  returns_existing existing model_name0 = true ↔
  model_name existing = model_name0 ∧ status existing ≠ ERROR.
Proof.
  unfold returns_existing.
  rewrite andb_true_iff, negb_true_iff, bool_decide_eq_true, bool_decide_eq_false.
  done.
Qed.

Lemma create_deployment_returns_existing st env self model_name0 backend0 enabled0
    user_id0 cfg0 existing :
  deployments self !! effective_user_id env user_id0 = Some existing →
  returns_existing existing model_name0 = true →
  create_deployment st env self model_name0 backend0 enabled0 user_id0 cfg0
    = (self, None, existing).
Proof. intros Hex Hret. unfold create_deployment. by rewrite Hex, Hret. Qed.

Lemma create_deployment_fresh st env self model_name0 backend0 enabled0 user_id0 cfg0 :
  match deployments self !! effective_user_id env user_id0 with
  | Some existing => returns_existing existing model_name0 = false
  | None => True
  end →
  let uid := effective_user_id env user_id0 in
  let r := create_deployment st env self model_name0 backend0 enabled0 user_id0 cfg0 in
  r.1.1 = mkUserService (<[uid := r.2]> (deployments self)) (active_models self) ∧
  r.1.2 = Some (mkLoadTask uid model_name0 backend0 false) ∧
  user_id r.2 = uid ∧ model_name r.2 = model_name0 ∧ backend r.2 = backend0 ∧
  status r.2 = DEPLOYING ∧ api_key_enabled r.2 = enabled0 ∧
  api_key r.2 = (if enabled0 then Some (generate_api_key env) else None) ∧
  created_at r.2 = create_now env ∧ loaded_at r.2 = None ∧ error_message r.2 = None.
Proof.
  intros Hex. unfold create_deployment.
  destruct (deployments self !! effective_user_id env user_id0) as [existing|];
    [rewrite Hex|]; simpl; repeat split; reflexivity.
Qed.

Lemma keyed_user_ids self :
  (∀ k d, deployments self !! k = Some d → user_id d = k) →
  user_id <$> list_deployments self = (map_to_list (deployments self)).*1.
Proof.
  intros Hk. unfold list_deployments. rewrite <- list_fmap_compose.
  apply Forall_fmap_ext, Forall_forall. intros [k d] Hin.
  apply elem_of_map_to_list in Hin. simpl. eauto.
Qed.

Lemma registry_inv_NoDup self :
  registry_inv self → NoDup (user_id <$> list_deployments self).
Proof.
  intros Hinv. rewrite keyed_user_ids by apply Hinv.
  apply NoDup_fst_map_to_list.
Qed.

Lemma loads_in_flight_app uid st svc loader ts ts' :
  loads_in_flight uid (mkWorld st svc loader (ts ++ ts'))
  = (filter (λ t, task_user_id t = uid) ts
       ++ filter (λ t, task_user_id t = uid) ts')%list.
Proof. unfold loads_in_flight. simpl. apply filter_app. Qed.

(** The credential check when the deployment demands a key. *)
Lemma verify_api_key_required st self uid d credentials :
  get_deployment self uid = Some d → key_required st d = true →
  verify_api_key st self uid credentials =
    match credentials with
    | None => HTTPException 401 "API key required"
    | Some k => if bool_decide (api_key d = Some k) then Return true
                else HTTPException 401 "Invalid API key"
    end.
Proof.
  intros Hd Hreq. unfold key_required in Hreq.
  apply andb_true_iff in Hreq as [Hauth Hen].
  unfold verify_api_key, validate_api_key. rewrite Hauth, Hd, Hen. simpl.
  destruct credentials as [k|]; [|done]. by case_bool_decide.
Qed.

Lemma verify_api_key_not_required st self uid d credentials :
  get_deployment self uid = Some d → key_required st d = false →
  verify_api_key st self uid credentials = Return true.
Proof.
  intros Hd Hreq. unfold key_required in Hreq.
  unfold verify_api_key. destruct (enable_auth st); [|done].
  simpl in *. by rewrite Hd, Hreq.
Qed.

Lemma verify_api_key_unknown st self uid credentials :
  get_deployment self uid = None →
  verify_api_key st self uid credentials = Return true.
Proof.
  intros Hd. unfold verify_api_key. destruct (enable_auth st); [|done].
  simpl. by rewrite Hd.
Qed.

(** An operation leaves the status stored under a key alone, or sets the
    status that belongs to the operation. *)
Lemma status_after_create st env self model_name0 backend0 enabled0 user_id0 cfg0 k :
  let r := create_deployment st env self model_name0 backend0 enabled0 user_id0 cfg0 in
  status <$> deployments r.1.1 !! k = status <$> deployments self !! k ∨
  status <$> deployments r.1.1 !! k = Some DEPLOYING.
Proof.
  unfold create_deployment.
  set (uid := effective_user_id env user_id0).
  assert (Hfresh : ∀ d, status d = DEPLOYING →
            status <$> <[uid:=d]> (deployments self) !! k
              = status <$> deployments self !! k ∨
            status <$> <[uid:=d]> (deployments self) !! k = Some DEPLOYING).
  { intros d Hd. rewrite lookup_insert. case_decide; [right|left]; simpl; congruence. }
  destruct (deployments self !! uid) as [existing|]; simpl.
  - destruct (returns_existing existing model_name0); simpl; [by left|by apply Hfresh].
  - by apply Hfresh.
Qed.

Lemma status_after_start self uid k :
  status <$> deployments (_load_user_model_start self uid) !! k
    = status <$> deployments self !! k ∨
  status <$> deployments (_load_user_model_start self uid) !! k = Some DEPLOYING.
Proof.
  unfold _load_user_model_start.
  destruct (deployments self !! uid) as [d|]; simpl; [|by left].
  rewrite lookup_insert. case_decide; [by right|by left].
Qed.

Lemma status_after_resume self uid awaited now k :
  let r := _load_user_model_resume self uid awaited now in
  status <$> deployments r.1 !! k = status <$> deployments self !! k ∨
  status <$> deployments r.1 !! k = Some READY ∨
  status <$> deployments r.1 !! k = Some ERROR.
Proof.
  unfold _load_user_model_resume. destruct awaited as [e|md].
  - destruct (is_Exception (exc_class e)); [|by left].
    destruct (deployments self !! uid) as [d|]; simpl; [|by left].
    rewrite lookup_insert. case_decide; [right; by right|by left].
  - destruct (deployments self !! uid) as [d|]; simpl; [|by left].
    rewrite lookup_insert. case_decide; [right; by left|by left].
Qed.

Lemma status_after_stop loader self uid now k :
  status <$> deployments (stop_deployment loader self uid now).1.2 !! k
    = status <$> deployments self !! k ∨
  (k = uid ∧
   status <$> deployments (stop_deployment loader self uid now).1.2 !! k
     = Some STOPPED).
Proof.
  unfold stop_deployment.
  destruct (deployments self !! uid) as [d|]; simpl; [|by left].
  destruct (active_models self !! uid); simpl;
    (rewrite lookup_insert; case_decide; [by right|by left]).
Qed.

Lemma status_after_delete loader self uid now k :
  status <$> deployments (delete_deployment loader self uid now).1.2 !! k
    = status <$> deployments self !! k ∨
  deployments (delete_deployment loader self uid now).1.2 !! k = None.
Proof.
  unfold delete_deployment.
  destruct (deployments self !! uid) as [d|] eqn:Hd; simpl; [|by left].
  pose proof (status_after_stop loader self uid now k) as Hstop.
  destruct (stop_deployment loader self uid now) as [[loader' self'] b]. simpl in *.
  rewrite lookup_delete. case_decide as Hk; [by right|].
  destruct Hstop as [?|[? _]]; [by left|congruence].
Qed.

(* ===================================================================== *)
(** ** The single-file server *)
(* ===================================================================== *)

(** [deploy_model] of the single-file server also stores the new entry with
    status "deploying" before the load is handed to the background tasks. *)
Remark single_file_deploy_stores_deploying env g request :
  let r := ModelProxyServer.deploy_model env g request in
  ModelProxyServer.status
    <$> ModelProxyServer.USER_DEPLOYMENTS r.1.1 !! r.1.2.1.1
    = Some "deploying".
Proof. simpl. by rewrite lookup_insert_eq. Qed.

(** [load_user_model] of the single-file server attaches the loaded model and
    marks the entry "ready" whatever its status was. *)
Remark single_file_load_marks_ready g user_id model_data now d :
  ModelProxyServer.USER_DEPLOYMENTS g !! user_id = Some d →
  let r := ModelProxyServer.load_user_model g user_id (inr model_data) now in
  r.2 = None ∧
  ModelProxyServer.status <$> ModelProxyServer.USER_DEPLOYMENTS r.1 !! user_id
    = Some "ready" ∧
  ModelProxyServer.ACTIVE_MODELS r.1 !! user_id = Some model_data.
Proof.
  intros Hd. unfold ModelProxyServer.load_user_model. rewrite Hd. simpl.
  by rewrite !lookup_insert_eq.
Qed.

(** A failed load of the single-file server is recorded in the entry and does
    not leave the task. *)
Remark single_file_load_failure_recorded g user_id e now d :
  ModelProxyServer.USER_DEPLOYMENTS g !! user_id = Some d →
  is_Exception (exc_class e) = true →
  let r := ModelProxyServer.load_user_model g user_id (inl e) now in
  r.2 = None ∧
  ModelProxyServer.status <$> ModelProxyServer.USER_DEPLOYMENTS r.1 !! user_id
    = Some "error" ∧
  (ModelProxyServer.USER_DEPLOYMENTS r.1 !! user_id ≫= ModelProxyServer.error)
    = Some (exc_str e) ∧
  ModelProxyServer.ACTIVE_MODELS r.1 = ModelProxyServer.ACTIVE_MODELS g.
Proof.
  intros Hd He.
  unfold ModelProxyServer.load_user_model, ModelProxyServer.load_user_model_except.
  rewrite He, Hd. simpl. by rewrite !lookup_insert_eq.
Qed.


(* ===================================================================== *)
(** ** C1: a READY deployment has a loaded model *)
(* ===================================================================== *)

(** C1 (amended).  In every reachable state and for every user, a deployment
    whose status is READY has an active model handle, so a reader never sees a
    READY deployment without a handle.  Every operation preserves this
    ([step_inv]).  The converse is not maintained: [create_deployment] and the
    completion of a load write [active_models] and the record independently. *)
Theorem ready_implies_handle w uid :
  reachable w → status_of w uid = Some READY → is_Some (handle_of w uid).
Proof.
  intros Hw Hst. unfold status_of, handle_of, get_deployment, get_user_model in *.
  destruct (deployments (user_service w) !! uid) as [d|] eqn:Hd; [|done].
  simpl in Hst. assert (Hready : status d = READY) by congruence.
  exact (inv_ready_handle _ (reachable_inv w Hw) uid d Hd Hready).
Qed.

(** C1, an instance: after a deployment is created and its model loaded, the
    status is READY and the handle is present. *)
Lemma ready_implies_handle_witness :
  let w := Examples.after default_settings (Examples.deploy_and_load "u1" "gpt2" true) in
  reachable w ∧ status_of w "u1" = Some READY ∧
  is_Some (handle_of w "u1").
Proof.
  intros w.
  assert (Hw : reachable w) by (apply after_reachable; by_evaluation).
  split; [exact Hw|]. split; [reflexivity|].
  exact (ready_implies_handle w "u1" Hw eq_refl).
Defined.

(** C1 as stated fails.  A user's model is deployed and loaded; the user then
    deploys a different model.  [create_deployment] overwrites the record with
    a DEPLOYING one and leaves [active_models] alone: a handle exists for a
    deployment that is not READY. *)
Lemma handle_without_ready :
  let w := Examples.after default_settings
             (Examples.deploy_and_load "u1" "gpt2" true
                ++ [Deploy (Examples.request "u1" "distilgpt2" true) Examples.env_b]) in
  reachable w ∧
  status_of w "u1" = Some DEPLOYING ∧
  handle_of w "u1" = Some Examples.gpt2_data ∧
  ¬ (status_of w "u1" = Some READY ↔ is_Some (handle_of w "u1")).
Proof.
  intros w. split; [apply after_reachable; by_evaluation|].
  split; [reflexivity|]. split; [reflexivity|].
  intros [_ Hback]. specialize (Hback (mk_is_Some _ _ eq_refl)). discriminate Hback.
Qed.

(* ===================================================================== *)
(** ** C2: a stop while a load is in flight *)
(* ===================================================================== *)

(** C2 (amended).  When a stop is processed for a user who has a deployment and
    a load task in flight, the stop marks the deployment STOPPED at once and
    leaves no handle attached.  When the remaining segments of the task then
    run, the completion step does not look at the current status: a load that
    succeeds attaches the loaded handle and sets the deployment READY; a load
    that fails attaches nothing and sets ERROR (an exception that is not an
    [Exception] leaves the status alone). *)
Theorem stop_then_load_completion w uid now i t env now' :
  is_Some (status_of w uid) →
  tasks w !! i = Some t → task_user_id t = uid →
  ∃ w1, step w (Stop uid now) = Some w1 ∧
        status_of w1 uid = Some STOPPED ∧ handle_of w1 uid = None ∧
        ∃ w2, run w1 (remaining_segments t i env now') = Some w2 ∧
              match load_model (task_backend t) env with
              | inr model_data =>
                  status_of w2 uid = Some READY ∧
                  handle_of w2 uid = Some model_data
              | inl e =>
                  handle_of w2 uid = None ∧
                  status_of w2 uid =
                    Some (if is_Exception (exc_class e) then ERROR
                          else if task_awaiting t then STOPPED else DEPLOYING)
              end.
Proof.
  intros [s Hs] Ht Huid. eexists. split; [apply step_Stop_eq|].
  unfold status_of, handle_of, get_deployment, get_user_model in *.
  destruct (deployments (user_service w) !! uid) as [d|] eqn:Hd; [|done].
  destruct (stop_deployment_at (model_loader w) _ uid now d Hd) as (Hd1 & Hm1 & _).
  set (w1 := mkWorld _ _ _ _). simpl.
  split; [by rewrite Hd1|]. split; [done|].
  (* the state in which the awaited call returns *)
  assert (∃ wa da, tasks wa !! i = Some (set_awaiting t) ∧
            deployments (user_service wa) !! uid = Some da ∧
            status da = (if task_awaiting t then STOPPED else DEPLOYING) ∧
            active_models (user_service wa) !! uid = None ∧
            ∀ w2, step wa (TaskResume i env now') = Some w2 →
                  run w1 (remaining_segments t i env now') = Some w2)
    as (wa & da & Hta & Hda & Hsa & Hma & Hrun).
  { unfold remaining_segments. destruct (task_awaiting t) eqn:Ha.
    - exists w1, (with_updated_at now (with_status STOPPED d)).
      split; [simpl; rewrite Ht; by destruct t; simplify_eq /=|].
      repeat split; try done. intros w2 Hw2. by rewrite (run_cons _ _ _ _ Hw2).
    - eexists _, (with_status DEPLOYING (with_updated_at now (with_status STOPPED d))).
      split; [|split; [|split; [|split]]]; last first.
      + intros w2 Hw2.
        rewrite (run_cons _ _ _ _ (step_TaskStart_eq w1 i t Ht Ha)).
        by rewrite (run_cons _ _ _ _ Hw2).
      + simpl. rewrite Huid.
        destruct (_load_user_model_start_at _ uid _ Hd1) as [_ ->]. done.
      + done.
      + simpl. rewrite Huid.
        by destruct (_load_user_model_start_at _ uid _ Hd1) as [-> _].
      + simpl. apply list_lookup_insert_eq. by eapply lookup_lt_Some. }
  eexists. split.
  { apply Hrun. by apply step_TaskResume_eq. }
  simpl. rewrite Huid.
  destruct (load_model (task_backend t) env) as [e|model_data].
  - destruct (is_Exception (exc_class e)) eqn:He.
    + destruct (_load_user_model_resume_failed _ uid e now' da Hda He) as (-> & -> & _).
      done.
    + unfold _load_user_model_resume. rewrite He. simpl.
      rewrite Hda. simpl. by rewrite Hsa.
  - destruct (_load_user_model_resume_loaded _ uid model_data now' da Hda)
      as (-> & -> & _). done.
Qed.

(** C2, an instance: a stop during the awaited load, then the load succeeds. *)
Lemma stop_then_load_completion_witness :
  let w := Examples.after default_settings
             [Deploy (Examples.request "u1" "gpt2" true) Examples.env_a; TaskStart 0] in
  let t := mkLoadTask "u1" "gpt2" TRANSFORMERS true in
  is_Some (status_of w "u1") ∧ tasks w !! 0 = Some t ∧ task_user_id t = "u1" ∧
  ∃ w1 w2, step w (Stop "u1" 6) = Some w1 ∧
           status_of w1 "u1" = Some STOPPED ∧
           run w1 [TaskResume 0 Examples.load_ok 8] = Some w2 ∧
           status_of w2 "u1" = Some READY ∧
           handle_of w2 "u1" = Some Examples.gpt2_data.
Proof.
  intros w t.
  assert (H1 : is_Some (status_of w "u1")) by (by eexists).
  assert (H2 : tasks w !! 0 = Some t) by reflexivity.
  assert (H3 : task_user_id t = "u1") by reflexivity.
  split; [exact H1|]. split; [exact H2|]. split; [exact H3|].
  destruct (stop_then_load_completion w "u1" 6 0 t Examples.load_ok 8 H1 H2 H3)
    as (w1 & Hstop & Hstopped & _ & w2 & Hrun & Hready & Hhandle).
  exists w1, w2. repeat split; assumption.
Defined.

(** C2 as stated fails.  A deployment is created and stopped while its load is
    in flight, before the task starts or while it awaits the runtime; when the
    load resolves the deployment is READY with the fresh handle attached, not
    STOPPED. *)
Lemma stop_during_load_resurrects :
  let before_start := Examples.after default_settings
        [Deploy (Examples.request "u1" "gpt2" true) Examples.env_a; Stop "u1" 6] in
  let while_awaiting := Examples.after default_settings
        [Deploy (Examples.request "u1" "gpt2" true) Examples.env_a; TaskStart 0;
         Stop "u1" 6] in
  (status_of before_start "u1" = Some STOPPED ∧
   length (loads_in_flight "u1" before_start) = 1 ∧
   ∃ w, run before_start [TaskStart 0; TaskResume 0 Examples.load_ok 8] = Some w ∧
        loads_in_flight "u1" w = [] ∧
        status_of w "u1" = Some READY ∧
        handle_of w "u1" = Some Examples.gpt2_data) ∧
  (status_of while_awaiting "u1" = Some STOPPED ∧
   length (loads_in_flight "u1" while_awaiting) = 1 ∧
   ∃ w, run while_awaiting [TaskResume 0 Examples.load_ok 8] = Some w ∧
        loads_in_flight "u1" w = [] ∧
        status_of w "u1" = Some READY ∧
        handle_of w "u1" = Some Examples.gpt2_data).
Proof.
  intros before_start while_awaiting.
  split; (split; [reflexivity|]); (split; [reflexivity|]);
    eexists; (split; [vm_compute; reflexivity|]); by_evaluation.
Qed.

(* ===================================================================== *)
(** ** C3: create is idempotent *)
(* ===================================================================== *)



(* ===================================================================== *)
(** ** C4: loads in flight for one user *)
(* ===================================================================== *)

(** C4 (amended).  A repeat create for a user whose deployment names the same
    model and is not in ERROR schedules no load: the user's loads in flight are
    unchanged.  Any other repeat create schedules exactly one more load, with
    no check for a load already in flight for that user. *)
Theorem repeat_create_loads_in_flight w request env w' uid existing :
  reachable w →
  step w (Deploy request env) = Some w' →
  req_user_id request = Some uid →
  get_deployment (user_service w) uid = Some existing →
  (model_name existing = req_model_name request ∧ status existing ≠ ERROR →
   loads_in_flight uid w' = loads_in_flight uid w) ∧
  (¬ (model_name existing = req_model_name request ∧ status existing ≠ ERROR) →
   loads_in_flight uid w' =
     (loads_in_flight uid w
        ++ [mkLoadTask uid (req_model_name request) (req_backend request) false])%list).
Proof.
  intros Hw Hstep Hreq Hex. pose proof (reachable_inv w Hw) as Hinv.
  unfold get_deployment in Hex.
  assert (Hne : uid ≠ "").
  { intros ->. rewrite (inv_nonempty _ Hinv) in Hex. done. }
  pose proof (effective_user_id_supplied env uid Hne) as Heff.
  simpl in Hstep. case_bool_decide; [|done]. unfold deploy_model in Hstep.
  rewrite Hreq in Hstep. split.
  - intros Hsame. apply returns_existing_true in Hsame.
    rewrite (create_deployment_returns_existing _ _ _ _ _ _ _ _ existing) in Hstep
      by (by rewrite ?Heff).
    simplify_eq /=. rewrite loads_in_flight_app. simpl.
    by rewrite filter_nil, app_nil_r.
  - intros Hother.
    assert (Hret : returns_existing existing (req_model_name request) = false).
    { destruct (returns_existing _ _) eqn:Hret; [|done].
      by apply returns_existing_true in Hret. }
    pose proof (create_deployment_fresh (settings w) env (user_service w)
                  (req_model_name request) (req_backend request)
                  (req_api_key_enabled request) (Some uid)
                  (req_custom_config request)) as Hf.
    rewrite Heff, Hex in Hf. specialize (Hf Hret).
    destruct (create_deployment _ _ _ _ _ _ _ _) as [[svc task] dep].
    destruct Hf as (_ & Htask & _). simpl in Htask. simplify_eq /=.
    rewrite loads_in_flight_app. f_equal.
    rewrite filter_cons_True by done. done.
Qed.

(** C4, an instance: the same model deployed twice for [u1] while the first
    load is in flight leaves one load in flight. *)
Lemma repeat_create_loads_in_flight_witness :
  let w := Examples.after default_settings
             [Deploy (Examples.request "u1" "gpt2" true) Examples.env_a] in
  let existing :=
    mkUserDeployment "u1" "gpt2" TRANSFORMERS DEPLOYING (Some "sk-Zm9vYmFy") true
      "http://localhost:8000/user/u1/v1" 5 5 None None ∅ in
  let again := Deploy (Examples.request "u1" "gpt2" true) Examples.env_b in
  let w' := Examples.after default_settings
              [Deploy (Examples.request "u1" "gpt2" true) Examples.env_a; again] in
  reachable w ∧ step w again = Some w' ∧
  get_deployment (user_service w) "u1" = Some existing ∧
  length (loads_in_flight "u1" w) = 1 ∧
  loads_in_flight "u1" w' = loads_in_flight "u1" w.
Proof.
  intros w existing again w'.
  assert (Hw : reachable w) by (apply after_reachable; by_evaluation).
  assert (Hstep : step w again = Some w') by (vm_compute; reflexivity).
  assert (Hex : get_deployment (user_service w) "u1" = Some existing) by reflexivity.
  split; [exact Hw|]. split; [exact Hstep|]. split; [exact Hex|].
  split; [reflexivity|].
  apply (repeat_create_loads_in_flight w (Examples.request "u1" "gpt2" true)
           Examples.env_b w' "u1" existing Hw Hstep eq_refl Hex).
  split; [reflexivity|discriminate].
Defined.

(** C4 as stated fails.  Two creates for [u1] naming different models, the
    second while the first load is in flight, leave two loads in flight for
    [u1]; both can be awaiting the runtime at once. *)
Lemma two_loads_in_flight :
  let w := Examples.after default_settings
             [Deploy (Examples.request "u1" "gpt2" true) Examples.env_a;
              Deploy (Examples.request "u1" "distilgpt2" true) Examples.env_b] in
  reachable w ∧
  loads_in_flight "u1" w =
    [mkLoadTask "u1" "gpt2" TRANSFORMERS false;
     mkLoadTask "u1" "distilgpt2" TRANSFORMERS false] ∧
  ∃ w', run w [TaskStart 0; TaskStart 1] = Some w' ∧
        loads_in_flight "u1" w' =
          [mkLoadTask "u1" "gpt2" TRANSFORMERS true;
           mkLoadTask "u1" "distilgpt2" TRANSFORMERS true].
Proof.
  intros w. split; [apply after_reachable; by_evaluation|].
  split; [reflexivity|]. eexists. split; vm_compute; reflexivity.
Qed.

(* ===================================================================== *)
(** ** C5: a failed load *)
(* ===================================================================== *)

(** C5 (amended).  When the awaited load of a task fails with an [Exception] and
    the user's deployment is in the registry: no exception leaves the task;
    the deployment is set to ERROR with [error_message] the text of the
    exception; [active_models] is left as it was, so the failed load attaches
    no handle; and the status route reports ERROR with the message.  The
    deploy route always returns a body, with status "deploying" whenever it
    scheduled a load. *)
Theorem load_failure_recorded w i t env e now d :
  tasks w !! i = Some t → task_awaiting t = true →
  load_model (task_backend t) env = inl e →
  is_Exception (exc_class e) = true →
  get_deployment (user_service w) (task_user_id t) = Some d →
  (_load_user_model_resume (user_service w) (task_user_id t) (inl e) now).2 = None ∧
  (∃ w', step w (TaskResume i env now) = Some w' ∧
         get_deployment (user_service w') (task_user_id t)
           = Some (with_updated_at now
                     (with_error_message (exc_str e) (with_status ERROR d))) ∧
         active_models (user_service w') = active_models (user_service w) ∧
         ∃ body, get_deployment_status (user_service w') (task_user_id t) = Return body ∧
                 dsr_status body = ERROR ∧
                 dsr_error_message body = Some (exc_str e)) ∧
  (∀ st env0 self0 request,
     ∃ body, (deploy_model st env0 self0 request).2 = Return body ∧
             (is_Some (deploy_model st env0 self0 request).1.2 →
              dr_status body = "deploying")).
Proof.
  intros Ht Ha Hload He Hd. unfold get_deployment in Hd.
  destruct (_load_user_model_resume_failed _ _ e now d Hd He) as (Hd' & Hm' & Hr).
  split; [exact Hr|]. split.
  - eexists. split; [by apply step_TaskResume_eq|]. simpl. rewrite Hload.
    unfold get_deployment_status, get_deployment. rewrite Hd'.
    split; [done|]. split; [done|]. eexists. split; [done|]. done.
  - intros st env0 self0 request. unfold deploy_model.
    pose proof (create_deployment_fresh st env0 self0 (req_model_name request)
                  (req_backend request) (req_api_key_enabled request)
                  (req_user_id request) (req_custom_config request)) as Hf.
    unfold create_deployment in *.
    destruct (deployments self0 !! effective_user_id env0 (req_user_id request))
      as [existing|].
    + destruct (returns_existing existing (req_model_name request)); simpl.
      * eexists. split; [done|]. intros [? ?]. done.
      * eexists. split; [done|]. done.
    + simpl. eexists. split; [done|]. done.
Qed.

(** C5, an instance: the runtime rejects the model name of [u3]. *)
Lemma load_failure_recorded_witness :
  let w := Examples.after default_settings
             [Deploy (Examples.request "u3" "no-such-model" false) Examples.env_a;
              TaskStart 0] in
  let t := mkLoadTask "u3" "no-such-model" TRANSFORMERS true in
  let d := mkUserDeployment "u3" "no-such-model" TRANSFORMERS DEPLOYING None false
             "http://localhost:8000/user/u3/v1" 5 5 None None ∅ in
  tasks w !! 0 = Some t ∧ task_awaiting t = true ∧
  load_model (task_backend t) Examples.load_rejected = inl Examples.rejected ∧
  is_Exception (exc_class Examples.rejected) = true ∧
  get_deployment (user_service w) (task_user_id t) = Some d ∧
  ∃ w', step w (TaskResume 0 Examples.load_rejected 9) = Some w' ∧
        status_of w' "u3" = Some ERROR ∧
        handle_of w' "u3" = None ∧
        (get_deployment (user_service w') "u3" ≫= error_message)
          = Some "no-such-model is not a valid model identifier".
Proof.
  intros w t d.
  assert (H1 : tasks w !! 0 = Some t) by reflexivity.
  assert (H2 : task_awaiting t = true) by reflexivity.
  assert (H3 : load_model (task_backend t) Examples.load_rejected
               = inl Examples.rejected) by reflexivity.
  assert (H4 : is_Exception (exc_class Examples.rejected) = true) by reflexivity.
  assert (H5 : get_deployment (user_service w) (task_user_id t) = Some d)
    by reflexivity.
  repeat (split; [assumption|]).
  destruct (load_failure_recorded w 0 t Examples.load_rejected Examples.rejected 9 d
              H1 H2 H3 H4 H5) as (_ & (w' & Hstep & Hd' & Hm' & _) & _).
  exists w'. split; [exact Hstep|]. unfold status_of, handle_of, get_user_model.
  change (task_user_id t) with "u3" in Hd'.
  rewrite Hd', Hm'. repeat split; reflexivity.
Defined.

(** C5 as stated fails in its last part.  [u1] has gpt2 loaded and then deploys
    a model that the runtime rejects: the deployment ends in ERROR with the
    message recorded, and the handle of the earlier load is still attached. *)
Lemma failed_load_keeps_earlier_handle :
  let w := Examples.after default_settings
             (Examples.deploy_and_load "u1" "gpt2" true
                ++ [Deploy (Examples.request "u1" "no-such-model" true) Examples.env_b;
                    TaskStart 0; TaskResume 0 Examples.load_rejected 12]) in
  reachable w ∧
  status_of w "u1" = Some ERROR ∧
  (get_deployment (user_service w) "u1" ≫= error_message)
    = Some "no-such-model is not a valid model identifier" ∧
  handle_of w "u1" = Some Examples.gpt2_data.
Proof.
  intros w. split; [apply after_reachable; by_evaluation|]. by_evaluation.
Qed.

(* ===================================================================== *)
(** ** C6: the chat route and the API key *)
(* ===================================================================== *)

(** C6 (amended).  With authentication enabled system-wide, a chat-completion
    request for a user whose deployment has [api_key_enabled] fails with 401
    when no bearer credential is presented and when the token differs from the
    stored key; with the stored key it never fails with 401, and when the
    deployment is READY and its model is loaded it succeeds if generation
    returns a text that is not empty, and fails with 400 if the generated text
    is empty, which the response message does not admit. *)
Theorem chat_requires_matching_key st self uid d messages generated :
  enable_auth st = true →
  get_deployment self uid = Some d →
  api_key_enabled d = true →
  user_chat_completions st self uid messages None generated
    = HTTPException 401 "API key required" ∧
  (∀ k, api_key d ≠ Some k →
        user_chat_completions st self uid messages (Some k) generated
          = HTTPException 401 "Invalid API key") ∧
  (∀ k, api_key d = Some k →
        (∀ code detail,
           user_chat_completions st self uid messages (Some k) generated
             = HTTPException code detail → code ≠ 401) ∧
        (status d = READY → is_Some (get_user_model self uid) →
         (∀ text, generated = inr text → text ≠ "" →
            ∃ body, user_chat_completions st self uid messages (Some k) generated
                      = Return body ∧
                    content (resp_message body) = text) ∧
         (generated = inr "" →
            ∃ detail, user_chat_completions st self uid messages (Some k) generated
                        = HTTPException 400 detail))).
Proof.
  intros Hauth Hd Hen.
  assert (Hreq : key_required st d = true).
  { unfold key_required. by rewrite Hauth, Hen. }
  unfold user_chat_completions.
  split; [|split].
  - by rewrite (verify_api_key_required st self uid d None Hd Hreq).
  - intros k Hk. rewrite (verify_api_key_required st self uid d (Some k) Hd Hreq).
    by rewrite bool_decide_eq_false_2.
  - intros k Hk. rewrite (verify_api_key_required st self uid d (Some k) Hd Hreq).
    rewrite bool_decide_eq_true_2 by done. split.
    + intros code detail.
      destruct (chat_completion self uid messages generated) as [e|body]; [|done].
      destruct (is_ValueError (exc_class e)); [intros; by simplify_eq|].
      destruct (is_Exception (exc_class e)); [intros; by simplify_eq|done].
    + intros Hready [md Hmd]. unfold chat_completion. rewrite Hd, Hready, Hmd.
      split.
      * intros text -> Htext. simpl. unfold assistant_message.
        rewrite bool_decide_eq_false_2 by done. eauto.
      * intros ->. simpl. eauto.
Qed.

(** C6, an instance: [u2] deployed with a key and loaded; no token, a wrong
    token, and the right token with a generated text and with none. *)
Lemma chat_requires_matching_key_witness :
  let self := user_service
     (Examples.after default_settings (Examples.deploy_and_load "u2" "gpt2" true)) in
  let d := mkUserDeployment "u2" "gpt2" TRANSFORMERS READY (Some "sk-Zm9vYmFy") true
             "http://localhost:8000/user/u2/v1" 5 8 (Some 8) None ∅ in
  enable_auth default_settings = true ∧
  get_deployment self "u2" = Some d ∧
  api_key_enabled d = true ∧
  user_chat_completions default_settings self "u2" Examples.hello None (inr "Hello!")
    = HTTPException 401 "API key required" ∧
  user_chat_completions default_settings self "u2" Examples.hello (Some "sk-wrong")
    (inr "Hello!") = HTTPException 401 "Invalid API key" ∧
  (∃ body, user_chat_completions default_settings self "u2" Examples.hello
             (Some "sk-Zm9vYmFy") (inr "Hello!") = Return body ∧
           content (resp_message body) = "Hello!") ∧
  ∃ detail, user_chat_completions default_settings self "u2" Examples.hello
              (Some "sk-Zm9vYmFy") (inr "") = HTTPException 400 detail.
Proof.
  intros self d.
  assert (H1 : enable_auth default_settings = true) by reflexivity.
  assert (H2 : get_deployment self "u2" = Some d) by reflexivity.
  assert (H3 : api_key_enabled d = true) by reflexivity.
  repeat (split; [assumption|]).
  destruct (chat_requires_matching_key default_settings self "u2" d Examples.hello
              (inr "Hello!") H1 H2 H3) as (Hmissing & Hwrong & Hright).
  destruct (chat_requires_matching_key default_settings self "u2" d Examples.hello
              (inr "") H1 H2 H3) as (_ & _ & Hempty).
  split; [exact Hmissing|]. split; [apply Hwrong; discriminate|]. split.
  - apply (Hright "sk-Zm9vYmFy" eq_refl); [reflexivity|by eexists|reflexivity|done].
  - apply (Hempty "sk-Zm9vYmFy" eq_refl); [reflexivity|by eexists|reflexivity].
Defined.

(** C6 as stated fails.  With [enable_auth] off, a chat request for a
    deployment that has [api_key_enabled] succeeds with a wrong token and with
    no token. *)
Lemma auth_disabled_skips_key_check :
  let self := user_service
     (Examples.after Examples.auth_off (Examples.deploy_and_load "u2" "gpt2" true)) in
  (get_deployment self "u2" ≫= λ d, Some (api_key_enabled d, api_key d))
    = Some (true, Some "sk-Zm9vYmFy") ∧
  (∃ body, user_chat_completions Examples.auth_off self "u2" Examples.hello
             (Some "sk-wrong") (inr "Hello!") = Return body) ∧
  (∃ body, user_chat_completions Examples.auth_off self "u2" Examples.hello
             None (inr "Hello!") = Return body).
Proof. intros self. split; [reflexivity|]. split; eexists; vm_compute; reflexivity. Qed.

(* ===================================================================== *)
(** ** C7: validate_api_key *)
(* ===================================================================== *)

(** C7 (amended).  [validate_api_key] returns true exactly when the user has no
    deployment, or the deployment has [api_key_enabled] off, or the presented
    key equals the stored key.  It does not read the system-wide switch; its
    caller [verify_api_key] returns true without validating when
    [enable_auth] is off. *)
Theorem validate_api_key_cases self uid presented :
  (validate_api_key self uid presented = true ↔
   get_deployment self uid = None ∨
   ∃ d, get_deployment self uid = Some d ∧
        (api_key_enabled d = false ∨ api_key d = presented)) ∧
  (∀ st credentials,
     enable_auth st = false → verify_api_key st self uid credentials = Return true).
Proof.
  split.
  - unfold validate_api_key.
    destruct (get_deployment self uid) as [d|]; [|split; [by left|done]].
    destruct (api_key_enabled d) eqn:Hen; simpl.
    + rewrite bool_decide_eq_true. split.
      * intros Hk. right. exists d. auto.
      * intros [Hnone|(d' & Hd' & [Hoff|Hk])]; simplify_eq; [congruence|done].
    + split; [intros _; right; exists d; auto|done].
  - intros st credentials Hoff. unfold verify_api_key. by rewrite Hoff.
Qed.

(** C7 as stated fails.  For an unknown user [validate_api_key] accepts a key
    although none is stored; and with authentication disabled system-wide it
    still rejects a wrong key for a deployment that has [api_key_enabled]. *)
Lemma validate_differs_from_specification :
  (validate_api_key UserService_init "ghost" (Some "sk-guess") = true ∧
   validate_as_specified default_settings UserService_init "ghost" (Some "sk-guess")
     = false) ∧
  (let self := user_service
      (Examples.after Examples.auth_off
         [Deploy (Examples.request "u2" "gpt2" true) Examples.env_a]) in
   stored_api_key self "u2" = Some "sk-Zm9vYmFy" ∧
   validate_api_key self "u2" (Some "sk-wrong") = false ∧
   validate_as_specified Examples.auth_off self "u2" (Some "sk-wrong") = true).
Proof. by_evaluation. Qed.

(* ===================================================================== *)
(** ** C8: the order of the router's checks *)
(* ===================================================================== *)

(** C8 (amended).  The tenant routes resolve the credential check first.  An
    unknown user fails with 404 on the model listing and with 400 on chat
    completion, whatever credential is presented.  For a known user whose
    deployment demands a key, a missing or wrong credential fails with 401
    whatever the status.  Once the credential check passes, a deployment that
    is not READY fails with 503 on the model listing and with 400 carrying the
    status on chat completion. *)
Theorem router_check_order st self uid credentials messages generated :
  (get_deployment self uid = None →
   get_user_models st self uid credentials = HTTPException 404 "User not found" ∧
   user_chat_completions st self uid messages credentials generated
     = HTTPException 400 "User deployment not found") ∧
  (∀ d, get_deployment self uid = Some d →
        key_required st d = true → credential_matches d credentials = false →
        ∃ detail,
          get_user_models st self uid credentials = HTTPException 401 detail ∧
          user_chat_completions st self uid messages credentials generated
            = HTTPException 401 detail) ∧
  (∀ d, get_deployment self uid = Some d →
        key_required st d = false ∨ credential_matches d credentials = true →
        status d ≠ READY →
        get_user_models st self uid credentials
          = HTTPException 503 "Model not ready" ∧
        user_chat_completions st self uid messages credentials generated
          = HTTPException 400 ("Model not ready. Status: " ++ status_value (status d))).
Proof.
  unfold get_user_models, user_chat_completions.
  split; [|split].
  - intros Hd. rewrite (verify_api_key_unknown st self uid credentials Hd).
    unfold chat_completion. by rewrite Hd.
  - intros d Hd Hreq Hcred.
    rewrite (verify_api_key_required st self uid d credentials Hd Hreq).
    destruct credentials as [k|]; simpl in Hcred; [|eauto].
    rewrite Hcred. eauto.
  - intros d Hd Hgate Hst.
    assert (verify_api_key st self uid credentials = Return true) as ->.
    { destruct (key_required st d) eqn:Hreq.
      - destruct Hgate as [?|Hcred]; [done|].
        rewrite (verify_api_key_required st self uid d credentials Hd Hreq).
        destruct credentials as [k|]; simpl in Hcred; [by rewrite Hcred|done].
      - by eapply verify_api_key_not_required. }
    unfold chat_completion. rewrite Hd.
    destruct (status d); done.
Qed.

(** C8 as stated fails.  [u2] is DEPLOYING and has a key: the model listing and
    the chat route answer a wrong or missing credential with 401, not with
    NotReady; with the right key the listing answers 503 and the chat route
    400. *)
Lemma credential_checked_before_readiness :
  let self := user_service
     (Examples.after default_settings
        [Deploy (Examples.request "u2" "gpt2" true) Examples.env_a]) in
  status <$> get_deployment self "u2" = Some DEPLOYING ∧
  get_user_models default_settings self "u2" (Some "sk-wrong")
    = HTTPException 401 "Invalid API key" ∧
  get_user_models default_settings self "u2" None
    = HTTPException 401 "API key required" ∧
  user_chat_completions default_settings self "u2" Examples.hello (Some "sk-wrong")
    (inr "Hello!") = HTTPException 401 "Invalid API key" ∧
  get_user_models default_settings self "u2" (Some "sk-Zm9vYmFy")
    = HTTPException 503 "Model not ready" ∧
  user_chat_completions default_settings self "u2" Examples.hello
    (Some "sk-Zm9vYmFy") (inr "Hello!")
    = HTTPException 400 "Model not ready. Status: deploying".
Proof. by_evaluation. Qed.

(* ===================================================================== *)
(** ** C9: the status state machine *)
(* ===================================================================== *)

(** C9 (amended).  Along a step from a reachable state, a record's status is
    never PENDING, and it is either what it was or was set by the event that
    belongs to it: DEPLOYING by a create or the start of a load task, READY or
    ERROR by the completion of a load, STOPPED by a stop for that user.  A
    create that schedules a load has stored the record as DEPLOYING, and the
    scheduled task has not started. *)
Theorem status_changes w ev w' uid s' :
  reachable w → step w ev = Some w' →
  status_of w' uid = Some s' →
  s' ≠ PENDING ∧
  (status_of w uid = Some s' ∨ sets_status ev uid s') ∧
  (∀ request env, ev = Deploy request env → tasks w' ≠ tasks w →
     let created := effective_user_id env (req_user_id request) in
     status_of w' created = Some DEPLOYING ∧
     tasks w' = (tasks w ++ [mkLoadTask created (req_model_name request)
                               (req_backend request) false])%list).
Proof.
  intros Hw Hstep Hs'.
  assert (Hw' : reachable w') by (by eapply reachable_step).
  unfold status_of, get_deployment in *.
  split; [|split].
  - destruct (deployments (user_service w') !! uid) as [d|] eqn:Hd; [|done].
    simpl in Hs'. simplify_eq.
    exact (inv_no_pending _ (reachable_inv w' Hw') uid d Hd).
  - pose proof (step_cases w ev w' Hstep) as Hc.
    destruct ev as [request env|u now|u now|i|i env now]; simpl.
    + destruct Hc as [_ Hsvc]. rewrite Hsvc in Hs'.
      destruct (status_after_create (settings w) env (user_service w)
                  (req_model_name request) (req_backend request)
                  (req_api_key_enabled request) (req_user_id request)
                  (req_custom_config request) uid) as [Heq|Heq];
        rewrite Heq in Hs'; [by left|]. simplify_eq. right. simpl. eauto.
    + rewrite Hc in Hs'.
      destruct (status_after_stop (model_loader w) (user_service w) u now uid)
        as [Heq|[-> Heq]]; rewrite Heq in Hs'; [by left|].
      simplify_eq. right. simpl. eauto.
    + rewrite Hc in Hs'.
      destruct (status_after_delete (model_loader w) (user_service w) u now uid)
        as [Heq|Heq]; rewrite Heq in Hs'; [by left|done].
    + destruct Hc as (t & _ & _ & Hsvc). rewrite Hsvc in Hs'.
      destruct (status_after_start (user_service w) (task_user_id t) uid)
        as [Heq|Heq]; rewrite Heq in Hs'; [by left|].
      simplify_eq. right. simpl. eauto.
    + destruct Hc as (t & _ & _ & Hsvc). rewrite Hsvc in Hs'.
      destruct (status_after_resume (user_service w) (task_user_id t)
                  (load_model (task_backend t) env) now uid)
        as [Heq|[Heq|Heq]]; rewrite Heq in Hs'; [by left| |];
        simplify_eq; right; simpl; eauto.
  - intros request env -> Htasks.
    set (created := effective_user_id env (req_user_id request)).
    simpl in Hstep.
    case_bool_decide; [|done]. unfold deploy_model in Hstep.
    pose proof (create_deployment_fresh (settings w) env (user_service w)
                  (req_model_name request) (req_backend request)
                  (req_api_key_enabled request) (req_user_id request)
                  (req_custom_config request)) as Hf.
    fold created in Hf. unfold create_deployment in Hstep, Hf. fold created in Hstep, Hf.
    destruct (deployments (user_service w) !! created) as [existing|].
    + destruct (returns_existing existing (req_model_name request)).
      * simplify_eq /=. rewrite app_nil_r in Htasks. done.
      * destruct (Hf eq_refl) as (_ & _ & _ & _ & _ & Hst & _).
        simplify_eq /=. by rewrite lookup_insert_eq.
    + simplify_eq /=. by rewrite lookup_insert_eq.
Qed.

(** C9, an instance: the completion of the load sets READY. *)
Lemma status_changes_witness :
  let w := Examples.after default_settings
             [Deploy (Examples.request "u1" "gpt2" true) Examples.env_a; TaskStart 0] in
  let ev := TaskResume 0 Examples.load_ok 8 in
  let w' := Examples.after default_settings (Examples.deploy_and_load "u1" "gpt2" true) in
  reachable w ∧ step w ev = Some w' ∧ status_of w' "u1" = Some READY ∧
  READY ≠ PENDING ∧
  (status_of w "u1" = Some READY ∨ sets_status ev "u1" READY).
Proof.
  intros w ev w'.
  assert (Hw : reachable w) by (apply after_reachable; by_evaluation).
  assert (Hstep : step w ev = Some w') by (vm_compute; reflexivity).
  assert (Hs : status_of w' "u1" = Some READY) by reflexivity.
  repeat (split; [assumption|]).
  destruct (status_changes w ev w' "u1" READY Hw Hstep Hs) as (Hp & Hc & _).
  split; assumption.
Defined.

(** C9 as stated fails.  A create stores the record as DEPLOYING, not PENDING;
    and a load that completes after a stop takes the record from STOPPED to
    READY. *)
Lemma created_deploying_and_not_monotonic :
  (let w := Examples.after default_settings
              [Deploy (Examples.request "u1" "gpt2" true) Examples.env_a] in
   status_of w "u1" = Some DEPLOYING ∧
   tasks w = [mkLoadTask "u1" "gpt2" TRANSFORMERS false]) ∧
  (let w := Examples.after default_settings
              [Deploy (Examples.request "u1" "gpt2" true) Examples.env_a;
               TaskStart 0; Stop "u1" 6] in
   status_of w "u1" = Some STOPPED ∧
   ∃ w', step w (TaskResume 0 Examples.load_ok 8) = Some w' ∧
         status_of w' "u1" = Some READY).
Proof.
  split; [by_evaluation|]. intros w. split; [reflexivity|].
  eexists. split; vm_compute; reflexivity.
Qed.

(* ===================================================================== *)
(** ** C10: an unknown user validates *)
(* ===================================================================== *)

(** C10.  For a user with no deployment in the registry, [validate_api_key]
    returns true for every presented key, an empty or absent one included, and
    [verify_api_key] lets the request through. *)
Theorem unknown_user_validates self uid presented :
  get_deployment self uid = None →
  validate_api_key self uid presented = true ∧
  ∀ st credentials, verify_api_key st self uid credentials = Return true.
Proof.
  intros Hd. split.
  - unfold validate_api_key. by rewrite Hd.
  - intros st credentials. by apply verify_api_key_unknown.
Qed.

(** C10, an instance: the empty registry, the empty key and the absent key. *)
Lemma unknown_user_validates_witness :
  get_deployment UserService_init "ghost" = None ∧
  validate_api_key UserService_init "ghost" (Some "") = true ∧
  validate_api_key UserService_init "ghost" None = true.
Proof.
  assert (H : get_deployment UserService_init "ghost" = None) by reflexivity.
  split; [exact H|]. split.
  - apply (unknown_user_validates UserService_init "ghost" (Some "") H).
  - apply (unknown_user_validates UserService_init "ghost" None H).
Defined.

(* ===================================================================== *)
(** ** Further properties of the registry *)
(* ===================================================================== *)

(** What [create_deployment] does to its own key and to the others. *)
Lemma create_deployment_lookup st env self model_name0 backend0 enabled0 user_id0
    cfg0 k :
  let uid := effective_user_id env user_id0 in
  let r := create_deployment st env self model_name0 backend0 enabled0 user_id0 cfg0 in
  active_models r.1.1 = active_models self ∧
  (deployments r.1.1 !! k = deployments self !! k ∧ (k = uid → r.1.2 = None) ∨
   k = uid ∧ deployments r.1.1 !! k = Some r.2 ∧
   r.1.2 = Some (mkLoadTask uid model_name0 backend0 false) ∧
   status r.2 = DEPLOYING ∧
   binding r.2 =
     (uid, model_name0, backend0,
      if enabled0 then Some (generate_api_key env) else None, enabled0,
      "http://" ++ _get_external_ip env ++ ":" ++ pretty (port st)
        ++ "/user/" ++ uid ++ "/v1",
      create_now env, default ∅ cfg0)).
Proof.
  intros uid r. subst r. unfold create_deployment. fold uid.
  destruct (deployments self !! uid) as [existing|] eqn:Hex;
    [destruct (returns_existing existing model_name0)|]; simpl.
  - split; [done|]. left. done.
  - split; [done|]. destruct (decide (k = uid)) as [->|Hne].
    + right. by rewrite lookup_insert_eq.
    + left. rewrite lookup_insert_ne by done. done.
  - split; [done|]. destruct (decide (k = uid)) as [->|Hne].
    + right. by rewrite lookup_insert_eq.
    + left. rewrite lookup_insert_ne by done. done.
Qed.

Lemma step_Deploy_eq w request env w' :
  step w (Deploy request env) = Some w' →
  let r := create_deployment (settings w) env (user_service w)
             (req_model_name request) (req_backend request)
             (req_api_key_enabled request) (req_user_id request)
             (req_custom_config request) in
  w' = mkWorld (settings w) r.1.1 (model_loader w) (tasks w ++ option_list r.1.2).
Proof.
  intros Hstep. simpl in Hstep. case_bool_decide; [|done].
  unfold deploy_model in Hstep.
  destruct (create_deployment _ _ _ _ _ _ _ _) as [[svc task] dep].
  by simplify_eq /=.
Qed.

(** A step keeps the binding of every record it leaves in the registry, unless
    it is a deploy that stores a fresh record. *)
Lemma step_binding w ev w' uid d' :
  step w ev = Some w' →
  get_deployment (user_service w') uid = Some d' →
  (∃ d, get_deployment (user_service w) uid = Some d ∧ binding d' = binding d ∧
        (∀ request env, ev = Deploy request env → d' = d)) ∨
  (∃ request env,
     ev = Deploy request env ∧ uid = effective_user_id env (req_user_id request) ∧
     status d' = DEPLOYING ∧
     tasks w' = (tasks w ++ [mkLoadTask uid (req_model_name request)
                               (req_backend request) false])%list ∧
     binding d' =
       (uid, req_model_name request, req_backend request,
        if req_api_key_enabled request then Some (generate_api_key env) else None,
        req_api_key_enabled request,
        "http://" ++ _get_external_ip env ++ ":" ++ pretty (port (settings w))
          ++ "/user/" ++ uid ++ "/v1",
        create_now env, default ∅ (req_custom_config request))).
Proof.
  intros Hstep Hd'. pose proof (step_cases w ev w' Hstep) as Hc.
  unfold get_deployment in *.
  destruct ev as [request env|u now|u now|i|i env now].
  - destruct Hc as [_ Hsvc]. rewrite Hsvc in Hd'.
    destruct (create_deployment_lookup (settings w) env (user_service w)
                (req_model_name request) (req_backend request)
                (req_api_key_enabled request) (req_user_id request)
                (req_custom_config request) uid)
      as [_ [[Hsame _]|(-> & Hnew & Htask & Hst & Hb)]].
    + left. rewrite Hsame in Hd'. exists d'. eauto.
    + right. rewrite Hnew in Hd'. simplify_eq.
      exists request, env. split; [done|]. split; [done|]. split; [done|].
      split; [|done]. rewrite (step_Deploy_eq w request env w' Hstep). simpl.
      by rewrite Htask.
  - left. rewrite Hc in Hd'. unfold stop_deployment in Hd'.
    destruct (deployments (user_service w) !! u) as [d0|] eqn:Hd0;
      [|exists d'; by eauto].
    assert (<[u:=with_updated_at now (with_status STOPPED d0)]>
              (deployments (user_service w)) !! uid = Some d') as Hl.
    { by destruct (active_models (user_service w) !! u). }
    rewrite lookup_insert in Hl. case_decide; simplify_eq; [|by eauto].
    exists d0. split; [done|]. split; [done|]. intros; done.
  - left. rewrite Hc in Hd'. unfold delete_deployment in Hd'.
    destruct (deployments (user_service w) !! u) as [d0|] eqn:Hd0;
      [|exists d'; by eauto].
    unfold stop_deployment in Hd'. rewrite Hd0 in Hd'.
    assert (delete u (<[u:=with_updated_at now (with_status STOPPED d0)]>
                        (deployments (user_service w))) !! uid = Some d') as Hl.
    { by destruct (active_models (user_service w) !! u). }
    rewrite lookup_delete in Hl. case_decide; [done|].
    rewrite lookup_insert_ne in Hl by done. exists d'. by eauto.
  - left. destruct Hc as (t & _ & _ & Hsvc). rewrite Hsvc in Hd'.
    unfold _load_user_model_start in Hd'.
    destruct (deployments (user_service w) !! task_user_id t) as [d0|] eqn:Hd0;
      [|exists d'; by eauto].
    simpl in Hd'. rewrite lookup_insert in Hd'. case_decide; simplify_eq;
      [|by eauto].
    exists d0. split; [done|]. split; [done|]. intros; done.
  - left. destruct Hc as (t & _ & _ & Hsvc). rewrite Hsvc in Hd'.
    unfold _load_user_model_resume in Hd'.
    destruct (load_model (task_backend t) env) as [e|md].
    + destruct (is_Exception (exc_class e)); [|exists d'; by eauto].
      destruct (deployments (user_service w) !! task_user_id t) as [d0|] eqn:Hd0;
        [|exists d'; by eauto].
      simpl in Hd'. rewrite lookup_insert in Hd'. case_decide; simplify_eq;
        [|by eauto].
      exists d0. split; [done|]. split; [done|]. intros; done.
    + destruct (deployments (user_service w) !! task_user_id t) as [d0|] eqn:Hd0;
        simpl in Hd'; [|exists d'; by eauto].
      rewrite lookup_insert in Hd'. case_decide; simplify_eq; [|by eauto].
      exists d0. split; [done|]. split; [done|]. intros; done.
Qed.

(** X1.  A step of the service that operates on one user (a deploy request, a
    stop, a delete, the start or the completion of a load task of that user)
    leaves the deployment record and the model handle of every other user as
    they were. *)
Theorem other_users_untouched w ev w' u uid :
  step w ev = Some w' → event_user w ev = Some u → uid ≠ u →
  get_deployment (user_service w') uid = get_deployment (user_service w) uid ∧
  get_user_model (user_service w') uid = get_user_model (user_service w) uid.
Proof.
  intros Hstep Hu Hne. pose proof (step_cases w ev w' Hstep) as Hc.
  unfold get_deployment, get_user_model.
  destruct ev as [request env|u0 now|u0 now|i|i env now]; simpl in Hu.
  - simplify_eq. destruct Hc as [_ ->].
    destruct (create_deployment_lookup (settings w) env (user_service w)
                (req_model_name request) (req_backend request)
                (req_api_key_enabled request) (req_user_id request)
                (req_custom_config request) uid) as [-> [[-> _]|[? _]]]; done.
  - simplify_eq. rewrite Hc. unfold stop_deployment.
    destruct (deployments (user_service w) !! u) as [d0|]; [|done].
    destruct (active_models (user_service w) !! u); simpl;
      rewrite lookup_insert_ne, ?lookup_delete_ne by done; done.
  - simplify_eq. rewrite Hc. unfold delete_deployment, stop_deployment.
    destruct (deployments (user_service w) !! u) as [d0|]; [|done].
    destruct (active_models (user_service w) !! u); simpl;
      rewrite lookup_delete_ne, lookup_insert_ne, ?lookup_delete_ne by done; done.
  - destruct Hc as (t & Ht & _ & ->). rewrite Ht in Hu. simplify_eq /=.
    unfold _load_user_model_start.
    destruct (deployments (user_service w) !! task_user_id t) as [d0|]; [|done].
    simpl. by rewrite lookup_insert_ne.
  - destruct Hc as (t & Ht & _ & ->). rewrite Ht in Hu. simplify_eq /=.
    unfold _load_user_model_resume.
    destruct (load_model (task_backend t) env) as [e|md].
    + destruct (is_Exception (exc_class e)); [|done].
      destruct (deployments (user_service w) !! task_user_id t) as [d0|]; [|done].
      simpl. by rewrite lookup_insert_ne.
    + destruct (deployments (user_service w) !! task_user_id t) as [d0|]; simpl;
        rewrite ?lookup_insert_ne by done; done.
Qed.

(** X1, an instance. *)
Lemma other_users_untouched_witness :
  let w := Examples.after default_settings
             (Examples.deploy_and_load "u1" "gpt2" true
                ++ [Deploy (Examples.request "u2" "distilgpt2" false) Examples.env_b;
                    TaskStart 0]) in
  let ev := TaskResume 0 Examples.load_rejected 12 in
  ∃ w', step w ev = Some w' ∧ event_user w ev = Some "u2" ∧ "u1" ≠ "u2" ∧
        status_of w' "u2" = Some ERROR ∧
        get_deployment (user_service w') "u1" = get_deployment (user_service w) "u1" ∧
        get_user_model (user_service w') "u1" = Some Examples.gpt2_data.
Proof.
  intros w ev. eexists.
  assert (Hstep : step w ev = Some (Examples.after default_settings
             (Examples.deploy_and_load "u1" "gpt2" true
                ++ [Deploy (Examples.request "u2" "distilgpt2" false) Examples.env_b;
                    TaskStart 0; ev]))) by (vm_compute; reflexivity).
  assert (Hu : event_user w ev = Some "u2") by reflexivity.
  assert (Hne : "u1" ≠ "u2") by discriminate.
  split; [exact Hstep|]. split; [exact Hu|]. split; [exact Hne|].
  split; [reflexivity|].
  destruct (other_users_untouched w ev _ "u2" "u1" Hstep Hu Hne) as [Hd Hm].
  split; [exact Hd|]. rewrite Hm. reflexivity.
Defined.

(** X2.  After any step, a record found in the registry either agrees with the
    record stored for that user before the step on user_id, model_name,
    backend, api_key, api_key_enabled, base_url, created_at and custom_config,
    or it was just written by a deploy request for that user, has status
    DEPLOYING, and exactly one load task was added. So loads and stops only
    change status, timestamps and error message. *)
Theorem record_binding_fixed w ev w' uid d' :
  step w ev = Some w' →
  get_deployment (user_service w') uid = Some d' →
  (∃ d, get_deployment (user_service w) uid = Some d ∧
        user_id d' = user_id d ∧ model_name d' = model_name d ∧
        backend d' = backend d ∧ api_key d' = api_key d ∧
        api_key_enabled d' = api_key_enabled d ∧ base_url d' = base_url d ∧
        created_at d' = created_at d ∧ custom_config d' = custom_config d) ∨
  (∃ request env, ev = Deploy request env ∧
                  event_user w ev = Some uid ∧ status d' = DEPLOYING ∧
                  length (tasks w') = S (length (tasks w))).
Proof.
  intros Hstep Hd'.
  destruct (step_binding w ev w' uid d' Hstep Hd')
    as [(d & Hd & Hb & _)|(request & env & -> & Hu & Hst & Htasks & Hb)].
  - left. exists d. split; [done|]. unfold binding in Hb. by simplify_eq.
  - right. exists request, env. split; [done|]. split; [simpl; congruence|].
    split; [done|]. rewrite Htasks, length_app. simpl. lia.
Qed.

(** X2, an instance. *)
Lemma record_binding_fixed_witness :
  let w := Examples.after default_settings
             [Deploy (Examples.request "u2" "gpt2" true) Examples.env_a; TaskStart 0] in
  let ev := TaskResume 0 Examples.load_ok 8 in
  ∃ w' d', step w ev = Some w' ∧
           get_deployment (user_service w') "u2" = Some d' ∧
           status d' = READY ∧
           ∃ d, get_deployment (user_service w) "u2" = Some d ∧
                status d = DEPLOYING ∧
                api_key d' = api_key d ∧ base_url d' = base_url d.
Proof.
  intros w ev.
  assert (∃ w', step w ev = Some w') as [w' Hstep] by (eexists; vm_compute; reflexivity).
  assert (∃ d', get_deployment (user_service w') "u2" = Some d' ∧ status d' = READY)
    as (d' & Hd' & Hst').
  { vm_compute in Hstep. simplify_eq. eexists. split; reflexivity. }
  exists w', d'. split; [exact Hstep|]. split; [exact Hd'|]. split; [exact Hst'|].
  destruct (record_binding_fixed w ev w' "u2" d' Hstep Hd')
    as [(d & Hd & _ & _ & _ & Hk & _ & Hb & _)|(request & env & Hev & _)].
  - exists d. split; [exact Hd|]. split; [|by split].
    vm_compute in Hd. by simplify_eq.
  - discriminate Hev.
Defined.

Lemma binding_fields d a b c k e u t cfg :
  binding d = (a, b, c, k, e, u, t, cfg) →
  user_id d = a ∧ model_name d = b ∧ backend d = c ∧ api_key d = k ∧
  api_key_enabled d = e ∧ base_url d = u ∧ created_at d = t ∧ custom_config d = cfg.
Proof. unfold binding. intros [= ? ? ? ? ? ? ? ?]. repeat split; assumption. Qed.

(** In every reachable state a record carries a key exactly when it has
    [api_key_enabled], and its [base_url] names the key it is stored under. *)
Lemma reachable_binding_inv w uid d :
  reachable w → get_deployment (user_service w) uid = Some d →
  (api_key_enabled d = false → api_key d = None) ∧
  (api_key_enabled d = true → ∃ token, api_key d = Some ("sk-" ++ token)) ∧
  ∃ host port_text,
    base_url d = "http://" ++ host ++ ":" ++ port_text ++ "/user/" ++ uid ++ "/v1".
Proof.
  intros Hw. revert uid d. induction Hw as [st|w ev w' Hw IH Hstep]; intros uid d Hd.
  - done.
  - destruct (step_binding w ev w' uid d Hstep Hd)
      as [(d0 & Hd0 & Hb & _)|(request & env & -> & Hu & Hst & _ & Hb)].
    + apply binding_fields in Hb as (_ & _ & _ & Hk & Hen & Hurl & _).
      destruct (IH uid d0 Hd0) as (Hoff & Hon & Hhost).
      by rewrite Hk, Hen, Hurl.
    + apply binding_fields in Hb as (_ & _ & _ & Hk & Hen & Hurl & _).
      rewrite Hk, Hen, Hurl. split; [by intros ->|]. split; [|by eauto].
      intros ->. unfold generate_api_key. by eauto.
Qed.



(** X4.  For a record of a reachable state with api_key_enabled, the
    deployment-status route returns the stored key, verify_api_key accepts
    that key as bearer token, and when enable_auth is on every other bearer
    token is refused with 401 Invalid API key. *)
Theorem revealed_key_is_accepted st w uid d :
  reachable w → get_deployment (user_service w) uid = Some d →
  api_key_enabled d = true →
  ∃ k body,
    get_deployment_status (user_service w) uid = Return body ∧
    dsr_api_key body = Some k ∧
    verify_api_key st (user_service w) uid (Some k) = Return true ∧
    (enable_auth st = true →
     ∀ k', k' ≠ k →
       verify_api_key st (user_service w) uid (Some k')
         = HTTPException 401 "Invalid API key").
Proof.
  intros Hw Hd Hen.
  destruct (reachable_binding_inv w uid d Hw Hd) as (_ & Hon & _).
  destruct (Hon Hen) as [token Hk]. exists ("sk-" ++ token).
  eexists. unfold get_deployment_status. rewrite Hd. split; [done|]. simpl.
  rewrite Hen. split; [done|].
  destruct (enable_auth st) eqn:Hauth.
  - assert (Hreq : key_required st d = true).
    { unfold key_required. by rewrite Hauth, Hen. }
    split.
    + rewrite (verify_api_key_required st _ uid d _ Hd Hreq).
      by rewrite bool_decide_eq_true_2.
    + intros _ k' Hk'.
      rewrite (verify_api_key_required st _ uid d _ Hd Hreq).
      rewrite bool_decide_eq_false_2; [done|congruence].
  - split; [|done]. unfold verify_api_key. by rewrite Hauth.
Qed.

(** X4, an instance. *)
Lemma revealed_key_is_accepted_witness :
  let w := Examples.after default_settings (Examples.deploy_and_load "u2" "gpt2" true) in
  ∃ d, reachable w ∧ get_deployment (user_service w) "u2" = Some d ∧
       api_key_enabled d = true ∧
       verify_api_key default_settings (user_service w) "u2" (Some "sk-Zm9vYmFy")
         = Return true ∧
       verify_api_key default_settings (user_service w) "u2" (Some "sk-Zm9vYmFz")
         = HTTPException 401 "Invalid API key".
Proof.
  intros w.
  assert (Hw : reachable w) by (apply after_reachable; by_evaluation).
  eexists. split; [exact Hw|]. split; [reflexivity|]. split; [reflexivity|].
  destruct (revealed_key_is_accepted default_settings w "u2" _ Hw eq_refl eq_refl)
    as (k & body & Hbody & Hk & Hok & Hbad).
  vm_compute in Hbody. simplify_eq. simpl in Hk. simplify_eq.
  split; [exact Hok|]. apply Hbad; [reflexivity|discriminate].
Defined.

Lemma unload_model_unloaded loader key :
  loaded_models loader = ∅ → unload_model loader key = loader.
Proof. intros He. unfold unload_model. by rewrite He, lookup_empty. Qed.

Lemma step_model_loader w ev w' :
  loaded_models (model_loader w) = ∅ → step w ev = Some w' →
  model_loader w' = model_loader w.
Proof.
  intros He Hstep. destruct ev as [request env|uid now|uid now|i|i env now];
    simpl in Hstep.
  - case_bool_decide; [|done].
    destruct (deploy_model _ _ _ _) as [[svc task] r]. by simplify_eq.
  - unfold stop_deployment in Hstep.
    destruct (deployments (user_service w) !! uid); [|by simplify_eq].
    destruct (active_models (user_service w) !! uid); simplify_eq /=;
      [by apply unload_model_unloaded|done].
  - unfold delete_deployment, stop_deployment in Hstep.
    destruct (deployments (user_service w) !! uid); [|by simplify_eq].
    destruct (active_models (user_service w) !! uid); simplify_eq /=;
      [by apply unload_model_unloaded|done].
  - destruct (tasks w !! i) as [t|]; [|done].
    destruct (task_awaiting t); [done|]. by simplify_eq.
  - destruct (tasks w !! i) as [t|]; [|done].
    destruct (task_awaiting t); [|done].
    destruct (_load_user_model_resume _ _ _ _) as [svc raised]. by simplify_eq.
Qed.

(** X5.  ModelLoader.loaded_models is empty in every reachable state:
    load_model returns the loaded model without registering it. Hence
    get_model finds nothing, list_loaded_models is empty, and the unload_model
    call made by stop_deployment never changes the loader. *)
Theorem loader_registry_stays_empty w :
  reachable w →
  loaded_models (model_loader w) = ∅ ∧
  list_loaded_models (model_loader w) = [] ∧
  (∀ key, get_model (model_loader w) key = None) ∧
  (∀ uid now, (stop_deployment (model_loader w) (user_service w) uid now).1.1
              = model_loader w).
Proof.
  intros Hw.
  assert (He : loaded_models (model_loader w) = ∅).
  { induction Hw as [st|w ev w' Hw IH Hstep]; [done|].
    by rewrite (step_model_loader w ev w' IH Hstep). }
  split; [done|]. split; [|split].
  - unfold list_loaded_models. by rewrite He, map_to_list_empty.
  - intros key. unfold get_model. by rewrite He, lookup_empty.
  - intros uid now. unfold stop_deployment.
    destruct (deployments (user_service w) !! uid); [|done].
    destruct (active_models (user_service w) !! uid); simpl;
      [by apply unload_model_unloaded|done].
Qed.

(** X5, an instance. *)
Lemma loader_registry_stays_empty_witness :
  let w := Examples.after default_settings (Examples.deploy_and_load "u1" "gpt2" true) in
  reachable w ∧ is_Some (get_user_model (user_service w) "u1") ∧
  get_model (model_loader w) "u1" = None.
Proof.
  intros w.
  assert (Hw : reachable w) by (apply after_reachable; by_evaluation).
  split; [exact Hw|]. split; [by eexists|].
  apply (loader_registry_stays_empty w Hw).
Defined.

Lemma length_filter_disjoint {A} (P Q : A → Prop)
    `{∀ x, Decision (P x)} `{∀ x, Decision (Q x)} (l : list A) :
  (∀ x, P x → Q x → False) →
  (length (filter P l) + length (filter Q l) ≤ length l)%nat.
Proof.
  intros Hdis. induction l as [|x l IH]; [done|].
  rewrite !filter_cons. destruct (decide (P x)), (decide (Q x)); simpl; try lia.
  exfalso; eauto.
Qed.

Lemma count_status_le_keys (s : DeploymentStatus) self (X : gset string) :
  (∀ k d, deployments self !! k = Some d → status d = s → k ∈ X) →
  (count_status s self ≤ size X)%nat.
Proof.
  intros Hin. unfold count_status, list_deployments.
  set (l := filter (λ kv : string * UserDeployment, status kv.2 = s)
                   (map_to_list (deployments self))).
  assert (Hlen : length (filter (λ d, status d = s) (map_to_list (deployments self)).*2)
                 = length l.*1).
  { rewrite length_fmap. subst l.
    induction (map_to_list (deployments self)) as [|[k d] m IH]; [done|].
    rewrite fmap_cons, !filter_cons. simpl.
    destruct (decide (status d = s)); simpl; by rewrite IH. }
  rewrite Hlen.
  assert (Hnd : NoDup l.*1).
  { subst l. apply NoDup_fmap_fst.
    - intros k d1 d2 [_ H1]%list_elem_of_filter [_ H2]%list_elem_of_filter.
      apply elem_of_map_to_list in H1, H2. congruence.
    - apply NoDup_filter, NoDup_map_to_list. }
  rewrite <- (size_list_to_set (C := gset string) l.*1 Hnd).
  apply subseteq_size. intros k Hk. apply elem_of_list_to_set in Hk.
  apply list_elem_of_fmap in Hk as ([k' d] & -> & Hkd).
  subst l. apply list_elem_of_filter in Hkd as [Hst Hkd].
  apply elem_of_map_to_list in Hkd. eauto.
Qed.

(** X6.  In every reachable state get_stats reports unique_users equal to
    total_deployments, active_deployments (READY records) at most
    active_models (handles), and active_deployments plus error_deployments at
    most total_deployments. *)
Theorem get_stats_consistent w :
  reachable w →
  let s := get_stats (user_service w) in
  unique_users s = total_deployments s ∧
  (active_deployments s ≤ stats_active_models s)%nat ∧
  (active_deployments s + error_deployments s ≤ total_deployments s)%nat.
Proof.
  intros Hw s. pose proof (reachable_inv w Hw) as Hinv. subst s. simpl.
  split; [|split].
  - rewrite size_list_to_set by (by apply registry_inv_NoDup).
    unfold list_deployments. by rewrite !length_fmap, length_map_to_list.
  - rewrite <- (size_dom (D := gset string) (active_models (user_service w))).
    apply count_status_le_keys. intros k d Hd Hst.
    apply elem_of_dom. by eapply inv_ready_handle.
  - unfold count_status.
    etrans; [apply length_filter_disjoint; intros d; congruence|].
    unfold list_deployments. by rewrite length_fmap, length_map_to_list.
Qed.

(** X6, an instance. *)
Lemma get_stats_consistent_witness :
  let w := Examples.after default_settings
             (Examples.deploy_and_load "u1" "gpt2" true
                ++ [Deploy (Examples.request "u2" "distilgpt2" false) Examples.env_b]) in
  reachable w ∧
  total_deployments (get_stats (user_service w)) = 2 ∧
  unique_users (get_stats (user_service w)) = 2 ∧
  active_deployments (get_stats (user_service w)) = 1.
Proof.
  intros w.
  assert (Hw : reachable w) by (apply after_reachable; by_evaluation).
  split; [exact Hw|]. split; [reflexivity|]. split; [|reflexivity].
  destruct (get_stats_consistent w Hw) as [-> _]. reflexivity.
Defined.

(** X7.  Stopping a deployment a second time gives the same loader, registry
    and return value as a single stop at the time of the second call. *)
Theorem stop_twice_is_stop_once loader self uid now1 now2 :
  let r1 := stop_deployment loader self uid now1 in
  stop_deployment r1.1.1 r1.1.2 uid now2 = stop_deployment loader self uid now2.
Proof.
  simpl. unfold stop_deployment.
  destruct (deployments self !! uid) as [d|] eqn:Hd; [|simpl; by rewrite Hd].
  destruct (active_models self !! uid) as [md|] eqn:Hm; simpl;
    rewrite lookup_insert_eq, ?lookup_delete_eq, ?Hm, insert_insert_eq; done.
Qed.

(** X8.  Deleting a deployment after stopping it gives the same loader,
    registry and return value as deleting it without the stop. *)
Theorem delete_after_stop_is_delete loader self uid now1 now2 :
  let r1 := stop_deployment loader self uid now1 in
  delete_deployment r1.1.1 r1.1.2 uid now2 = delete_deployment loader self uid now2.
Proof.
  simpl. unfold delete_deployment, stop_deployment.
  destruct (deployments self !! uid) as [d|] eqn:Hd.
  - destruct (active_models self !! uid) as [md|] eqn:Hm; simpl;
      rewrite lookup_insert_eq, ?lookup_delete_eq, ?Hm; simpl;
      rewrite !delete_insert_eq; done.
  - simpl. by rewrite Hd.
Qed.

(** X9.  If the user has a record, delete_deployment returns True, afterwards
    neither the record nor the model handle exists, the delete route answers
    with the deleted message, and a further delete returns False. If the user
    has no record, delete_deployment returns False and changes nothing, and
    both the delete route and the stop route answer 404 User deployment not
    found. *)
Theorem delete_deployment_outcome loader self uid now :
  let r := delete_deployment loader self uid now in
  match get_deployment self uid with
  | Some _ =>
      r.2 = true ∧
      get_deployment r.1.2 uid = None ∧ get_user_model r.1.2 uid = None ∧
      (App.delete_deployment loader self uid now).2
        = Return ("Deployment for user " ++ uid ++ " deleted") ∧
      (∀ now', (delete_deployment r.1.1 r.1.2 uid now').2 = false)
  | None =>
      r = (loader, self, false) ∧
      App.delete_deployment loader self uid now
        = (loader, self, HTTPException 404 "User deployment not found") ∧
      App.stop_deployment loader self uid now
        = (loader, self, HTTPException 404 "User deployment not found")
  end.
Proof.
  simpl. unfold App.delete_deployment, App.stop_deployment, delete_deployment,
    stop_deployment, get_deployment, get_user_model.
  destruct (deployments self !! uid) as [d|] eqn:Hd; [|done].
  destruct (active_models self !! uid) as [md|] eqn:Hm; simpl;
    rewrite !lookup_delete_eq, ?Hm; done.
Qed.

(** X10.  A model handle stored for a user who has no deployment record (as
    left by a load that completes after its record was deleted) is still
    stored after every step: stop and delete return early when the record is
    missing, and nothing else removes a handle. *)
Theorem orphan_handle_persists w ev w' uid :
  step w ev = Some w' →
  get_deployment (user_service w) uid = None →
  is_Some (get_user_model (user_service w) uid) →
  is_Some (get_user_model (user_service w') uid).
Proof.
  intros Hstep Hd [md Hm]. pose proof (step_cases w ev w' Hstep) as Hc.
  unfold get_deployment, get_user_model in *.
  destruct ev as [request env|u now|u now|i|i env now].
  - destruct Hc as [_ ->].
    destruct (create_deployment_lookup (settings w) env (user_service w)
                (req_model_name request) (req_backend request)
                (req_api_key_enabled request) (req_user_id request)
                (req_custom_config request) uid) as [-> _]. eauto.
  - rewrite Hc. unfold stop_deployment.
    destruct (deployments (user_service w) !! u) as [d0|] eqn:Hd0; [|by eauto].
    assert (uid ≠ u) by congruence.
    destruct (active_models (user_service w) !! u); simpl;
      rewrite ?lookup_delete_ne by done; eauto.
  - rewrite Hc. unfold delete_deployment, stop_deployment.
    destruct (deployments (user_service w) !! u) as [d0|] eqn:Hd0; [|by eauto].
    assert (uid ≠ u) by congruence.
    destruct (active_models (user_service w) !! u); simpl;
      rewrite ?lookup_delete_ne by done; eauto.
  - destruct Hc as (t & _ & _ & ->).
    unfold _load_user_model_start.
    destruct (deployments (user_service w) !! task_user_id t); simpl; eauto.
  - destruct Hc as (t & _ & _ & ->). unfold _load_user_model_resume.
    destruct (load_model (task_backend t) env) as [e|md'].
    + destruct (is_Exception (exc_class e)); [|by eauto].
      destruct (deployments (user_service w) !! task_user_id t); simpl; eauto.
    + destruct (deployments (user_service w) !! task_user_id t); simpl;
        (rewrite lookup_insert; case_decide; eauto).
Qed.

(** X10, an instance: the record is deleted before its load task runs. *)
Lemma orphan_handle_persists_witness :
  let w := Examples.after default_settings
             [Deploy (Examples.request "u1" "gpt2" true) Examples.env_a;
              Delete "u1" 6; TaskStart 0; TaskResume 0 Examples.load_ok 8] in
  reachable w ∧
  get_deployment (user_service w) "u1" = None ∧
  get_user_model (user_service w) "u1" = Some Examples.gpt2_data ∧
  ∃ w', step w (Delete "u1" 9) = Some w' ∧
        is_Some (get_user_model (user_service w') "u1").
Proof.
  intros w.
  assert (Hw : reachable w) by (apply after_reachable; by_evaluation).
  assert (Hd : get_deployment (user_service w) "u1" = None) by reflexivity.
  assert (Hm : get_user_model (user_service w) "u1" = Some Examples.gpt2_data)
    by reflexivity.
  split; [exact Hw|]. split; [exact Hd|]. split; [exact Hm|].
  assert (∃ w', step w (Delete "u1" 9) = Some w') as [w' Hstep]
    by (eexists; vm_compute; reflexivity).
  exists w'. split; [exact Hstep|].
  apply (orphan_handle_persists w (Delete "u1" 9) w' "u1" Hstep Hd).
  rewrite Hm. by eexists.
Defined.

(** X11.  After a stop, a deploy request for the same user and the same model
    is answered from the existing record: the state is unchanged, no load task
    is scheduled, the record stays STOPPED and the response reports the status
    stopped. *)
Theorem redeploy_after_stop_stays_stopped w uid d now w1 request env :
  reachable w →
  get_deployment (user_service w) uid = Some d →
  step w (Stop uid now) = Some w1 →
  req_user_id request = Some uid →
  req_model_name request = model_name d →
  String.length (uuid4 env) = 36 →
  step w1 (Deploy request env) = Some w1 ∧
  status_of w1 uid = Some STOPPED ∧
  ∃ body,
    (deploy_model (settings w1) env (user_service w1) request).2 = Return body ∧
    dr_status body = "stopped" ∧ dr_user_id body = uid.
Proof.
  intros Hw Hd Hstop Hreq Hmodel Hlen.
  pose proof (reachable_inv w Hw) as Hinv. unfold get_deployment in Hd.
  assert (Hne : uid ≠ "").
  { intros ->. rewrite (inv_nonempty _ Hinv) in Hd. done. }
  pose proof (effective_user_id_supplied env uid Hne) as Heff.
  rewrite step_Stop_eq in Hstop. simplify_eq.
  destruct (stop_deployment_at (model_loader w) (user_service w) uid now d Hd)
    as (Hd1 & _ & _).
  set (svc1 := (stop_deployment (model_loader w) (user_service w) uid now).1.2) in *.
  assert (Hcreate :
    create_deployment (settings w) env svc1 (req_model_name request)
      (req_backend request) (req_api_key_enabled request) (req_user_id request)
      (req_custom_config request)
    = (svc1, None, with_updated_at now (with_status STOPPED d))).
  { apply create_deployment_returns_existing.
    - by rewrite Hreq, Heff.
    - apply returns_existing_true. simpl. by rewrite Hmodel. }
  split; [|split].
  - simpl. rewrite bool_decide_eq_true_2 by done. unfold deploy_model. simpl.
    fold svc1. rewrite Hcreate. simpl. by rewrite app_nil_r.
  - unfold status_of, get_deployment. simpl. fold svc1. by rewrite Hd1.
  - unfold deploy_model. simpl. fold svc1. rewrite Hcreate. simpl.
    eexists. split; [done|]. simpl. split; [done|].
    exact (inv_keyed _ Hinv uid d Hd).
Qed.

(** X11, an instance. *)
Lemma redeploy_after_stop_stays_stopped_witness :
  let w := Examples.after default_settings (Examples.deploy_and_load "u1" "gpt2" true) in
  let w1 := Examples.after default_settings
              (Examples.deploy_and_load "u1" "gpt2" true ++ [Stop "u1" 9]) in
  let again := Deploy (Examples.request "u1" "gpt2" true) Examples.env_b in
  reachable w ∧ step w (Stop "u1" 9) = Some w1 ∧
  step w1 again = Some w1 ∧ status_of w1 "u1" = Some STOPPED ∧ tasks w1 = [].
Proof.
  intros w w1 again.
  assert (Hw : reachable w) by (apply after_reachable; by_evaluation).
  assert (Hstop : step w (Stop "u1" 9) = Some w1) by (vm_compute; reflexivity).
  split; [exact Hw|]. split; [exact Hstop|].
  destruct (redeploy_after_stop_stays_stopped w "u1" _ 9 w1
              (Examples.request "u1" "gpt2" true) Examples.env_b
              Hw eq_refl Hstop eq_refl eq_refl eq_refl) as (Hstep & Hst & _).
  split; [exact Hstep|]. split; [exact Hst|]. reflexivity.
Defined.

(* ===================================================================== *)
(** ** Further properties of the tenant routes and the inference service *)
(* ===================================================================== *)

Lemma verify_api_key_gate st self uid d credentials :
  get_deployment self uid = Some d →
  if key_required st d && negb (credential_matches d credentials)
  then ∃ detail, verify_api_key st self uid credentials = HTTPException 401 detail
  else verify_api_key st self uid credentials = Return true.
Proof.
  intros Hd. destruct (key_required st d) eqn:Hreq; simpl.
  - rewrite (verify_api_key_required st self uid d credentials Hd Hreq).
    destruct credentials as [k|]; simpl; [|by eauto].
    destruct (bool_decide (api_key d = Some k)); simpl; by eauto.
  - by eapply verify_api_key_not_required.
Qed.

(** X12.  The models route of a user returns a body exactly when the user has
    a record whose status is READY and the key check passes (no key is
    required, or the bearer token equals the stored key); the body is then the
    one entry of the deployed model, owned by user-USER_ID. *)
Theorem get_user_models_success st self uid credentials body :
  get_user_models st self uid credentials = Return body ↔
  ∃ d, get_deployment self uid = Some d ∧ status d = READY ∧
       (key_required st d = false ∨ credential_matches d credentials = true) ∧
       body = [ {| me_id := model_name d; me_created := created_at d;
                   me_owned_by := "user-" ++ uid; me_root := model_name d |} ].
Proof.
  unfold get_user_models. destruct (get_deployment self uid) as [d|] eqn:Hd.
  - pose proof (verify_api_key_gate st self uid d credentials Hd) as Hv.
    destruct (key_required st d) eqn:Hreq, (credential_matches d credentials) eqn:Hcred;
      simpl in Hv.
    2: { destruct Hv as [detail ->]. split; [done|].
         intros (d' & [= <-] & _ & [?|?] & _); congruence. }
    all: rewrite Hv; destruct (status d) eqn:Hst; simpl; split;
      try (intros [= <-]; exists d; by auto);
      try (intros [=]);
      intros (d' & [= <-] & Hr & _ & ->); congruence.
  - rewrite (verify_api_key_unknown st self uid credentials Hd).
    split; [done|]. intros (d & ? & _). done.
Qed.

(** X13.  For a READY record of a reachable state whose key check passes, the
    chat route always reaches the generation call.  A generated text that is
    not empty is returned as the assistant message of a body that names the
    deployed model, has the finish reason stop and a total token count that
    is the sum of the prompt and completion counts; an empty generated text
    is refused with 400 when the response message is built.  A ValueError
    raised by the generation becomes 400, any other Exception 500, and an
    exception outside Exception propagates. *)
Theorem ready_chat_reaches_generation st w uid d messages credentials generated :
  reachable w →
  get_deployment (user_service w) uid = Some d → status d = READY →
  key_required st d = false ∨ credential_matches d credentials = true →
  match generated with
  | inr text =>
      if bool_decide (text = "") then
        ∃ detail,
          user_chat_completions st (user_service w) uid messages credentials generated
            = HTTPException 400 detail
      else
        ∃ body,
          user_chat_completions st (user_service w) uid messages credentials generated
            = Return body ∧
          resp_model body = model_name d ∧
          resp_message body = mkChatMessage "assistant" text ∧
          resp_finish_reason body = "stop" ∧
          total_tokens body = prompt_tokens body + completion_tokens body
  | inl e =>
      user_chat_completions st (user_service w) uid messages credentials generated
        = if is_ValueError (exc_class e) then HTTPException 400 (exc_str e)
          else if is_Exception (exc_class e) then HTTPException 500 (exc_str e)
          else Unhandled e
  end.
Proof.
  intros Hw Hd Hst Hgate.
  destruct (inv_ready_handle _ (reachable_inv w Hw) uid d Hd Hst) as [md Hmd].
  unfold user_chat_completions.
  assert (verify_api_key st (user_service w) uid credentials = Return true) as ->.
  { destruct (key_required st d) eqn:Hreq.
    - destruct Hgate as [?|Hcred]; [done|].
      rewrite (verify_api_key_required st _ uid d credentials Hd Hreq).
      destruct credentials as [k|]; simpl in Hcred; [by rewrite Hcred|done].
    - by eapply verify_api_key_not_required. }
  unfold chat_completion, get_user_model. rewrite Hd, Hst, Hmd.
  destruct generated as [e|text]; [done|].
  cbn [status_value bool_decide negb]. unfold assistant_message.
  case_bool_decide as Htext.
  - subst text. simpl. by eauto.
  - simpl. eexists. split; [reflexivity|]. done.
Qed.

(** X13, an instance. *)
Lemma ready_chat_reaches_generation_witness :
  let w := Examples.after default_settings (Examples.deploy_and_load "u1" "gpt2" false) in
  ∃ d,
    reachable w ∧ get_deployment (user_service w) "u1" = Some d ∧ status d = READY ∧
    key_required default_settings d = false ∧
    (∃ body,
       user_chat_completions default_settings (user_service w) "u1" Examples.hello None
         (inr "Hello there") = Return body ∧
       resp_model body = model_name d ∧
       resp_message body = mkChatMessage "assistant" "Hello there" ∧
       resp_finish_reason body = "stop" ∧
       total_tokens body = prompt_tokens body + completion_tokens body) ∧
    ∃ detail,
      user_chat_completions default_settings (user_service w) "u1" Examples.hello None
        (inr "") = HTTPException 400 detail.
Proof.
  intros w.
  assert (Hw : reachable w) by (apply after_reachable; by_evaluation).
  eexists. split; [exact Hw|]. split; [reflexivity|]. split; [reflexivity|].
  split; [reflexivity|]. split.
  - apply (ready_chat_reaches_generation default_settings w "u1" _ Examples.hello
             None (inr "Hello there") Hw eq_refl eq_refl). by left.
  - apply (ready_chat_reaches_generation default_settings w "u1" _ Examples.hello
             None (inr "") Hw eq_refl eq_refl). by left.
Defined.

Lemma split_len_aux_app_space in_word s1 a s2 :
  is_space a = true →
  split_len_aux in_word (s1 ++ String a s2)
    = split_len_aux in_word s1 + split_len_aux false s2.
Proof.
  intros Ha. revert in_word. induction s1 as [|c s1 IH]; intros in_word; simpl.
  - by rewrite Ha.
  - destruct (is_space c); [apply IH|].
    destruct in_word; rewrite IH; done.
Qed.

Lemma split_len_concat_newline (parts : list string) (last : string) :
  split_len (String.concat newline (parts ++ [last]))
    = sum_list_with split_len parts + split_len last.
Proof.
  induction parts as [|p parts IH]; [done|].
  change ((p :: parts) ++ [last])%list with (p :: (parts ++ [last]))%list.
  assert (Hc : String.concat newline (p :: parts ++ [last])
               = p ++ newline ++ String.concat newline (parts ++ [last])).
  { simpl. by destruct (parts ++ [last])%list eqn:He; [destruct parts|]. }
  rewrite Hc.
  change (newline ++ String.concat newline (parts ++ [last]))
    with (String (Ascii.ascii_of_nat 10) (String.concat newline (parts ++ [last]))).
  unfold split_len at 1. rewrite split_len_aux_app_space by done.
  fold (split_len p). fold (split_len (String.concat newline (parts ++ [last]))).
  rewrite IH. simpl. lia.
Qed.

(** X14.  The prompt_tokens count, len(prompt.split()) of the formatted
    prompt, is 1 (the final Assistant: line) plus, for each message whose role
    is system, user or assistant, 1 plus the number of words of its content; a
    message with any other role contributes nothing. *)
Theorem prompt_tokens_formula (messages : list ChatMessage) :
  split_len (_format_messages_to_prompt messages)
    = S (sum_list_with message_tokens messages).
Proof.
  unfold _format_messages_to_prompt. rewrite split_len_concat_newline.
  change (split_len "Assistant:") with 1.
  assert (sum_list_with split_len (concat (prompt_part <$> messages))
          = sum_list_with message_tokens messages) as ->; [|lia].
  induction messages as [|m messages IH]; [done|].
  rewrite fmap_cons. simpl concat. rewrite sum_list_with_app, IH.
  cbn [sum_list_with]. f_equal. unfold prompt_part, message_tokens.
  repeat case_bool_decide; try congruence; cbn [sum_list_with orb];
    try reflexivity; rewrite Nat.add_0_r; reflexivity.
Qed.

(* ===================================================================== *)
(** ** Further properties of the single-file server *)
(* ===================================================================== *)

(** Entries are never removed, so every pending task finds its entry; and an
    entry marked "ready" has its model. *)
Lemma single_file_reachable_inv w :
  ModelProxyServerProcess.reachable w →
  (∀ i t, ModelProxyServerProcess.background_tasks w !! i = Some t →
     is_Some (ModelProxyServer.USER_DEPLOYMENTS
                (ModelProxyServerProcess.globals w) !! t.1.1)) ∧
  (∀ u d, ModelProxyServer.USER_DEPLOYMENTS
            (ModelProxyServerProcess.globals w) !! u = Some d →
          ModelProxyServer.status d = "ready" →
          is_Some (ModelProxyServer.ACTIVE_MODELS
                     (ModelProxyServerProcess.globals w) !! u)).
Proof.
  induction 1 as [|w ev w' Hw [IHt IHr] Hstep].
  - split; intros *; simpl; rewrite ?lookup_nil, ?lookup_empty; done.
  - destruct ev as [request env|i awaited now]; simpl in Hstep.
    + case_bool_decide; [|done]. simplify_eq /=. split.
      * intros i t Ht. apply lookup_app_Some in Ht as [Ht|[_ Ht]].
        -- rewrite lookup_insert. case_decide; [done|]. eauto.
        -- apply list_lookup_singleton_Some in Ht as [_ <-]. simpl.
           by rewrite lookup_insert_eq.
      * intros u d. rewrite lookup_insert. case_decide; [|by eauto].
        intros [= <-]. done.
    + destruct (ModelProxyServerProcess.background_tasks w !! i)
        as [[[uid m] b]|] eqn:Hi; [|done].
      destruct (IHt i _ Hi) as [d0 Hd0]. simpl in Hd0.
      unfold ModelProxyServer.load_user_model,
        ModelProxyServer.load_user_model_except in Hstep.
      assert (Hsub : ∀ j t,
                delete i (ModelProxyServerProcess.background_tasks w) !! j = Some t →
                ∃ j', ModelProxyServerProcess.background_tasks w !! j' = Some t).
      { intros j t Hj. rewrite list_lookup_delete in Hj.
        case_decide; eauto. }
      destruct awaited as [e|md].
      * destruct (is_Exception (exc_class e)).
        -- rewrite Hd0 in Hstep. simplify_eq /=. split.
           ++ intros j t Hj. destruct (Hsub j t Hj) as [j' Hj'].
              rewrite lookup_insert. case_decide; [done|]. eauto.
           ++ intros u d. rewrite lookup_insert. case_decide; [|by eauto].
              intros [= <-]. done.
        -- simplify_eq /=. split; [|done].
           intros j t Hj. destruct (Hsub j t Hj) as [j' Hj']. eauto.
      * rewrite Hd0 in Hstep. simplify_eq /=. split.
        -- intros j t Hj. destruct (Hsub j t Hj) as [j' Hj'].
           rewrite lookup_insert. case_decide; [done|]. eauto.
        -- intros u d. rewrite !lookup_insert. case_decide; [by eauto|].
           eauto.
Qed.

Lemma single_file_after_reachable evs :
  is_Some (ModelProxyServerProcess.run ModelProxyServerProcess.init_world evs) →
  ModelProxyServerProcess.reachable (ModelProxyServerProcess.after evs).
Proof.
  unfold ModelProxyServerProcess.after.
  assert (Hgen : ∀ w w', ModelProxyServerProcess.reachable w →
            ModelProxyServerProcess.run w evs = Some w' →
            ModelProxyServerProcess.reachable w').
  { induction evs as [|ev evs IH]; intros w w' Hw Hrun; simpl in Hrun.
    - by simplify_eq.
    - destruct (ModelProxyServerProcess.step w ev) as [w1|] eqn:Hstep; [|done].
      eapply IH; [|exact Hrun]. by eapply ModelProxyServerProcess.reachable_step. }
  intros [w Hw]. rewrite Hw. simpl.
  eapply Hgen; [apply ModelProxyServerProcess.reachable_init|exact Hw].
Qed.

(** X15.  In the single-file server entries of USER_DEPLOYMENTS are never
    removed, so a scheduled background task always finds the entry of its
    user: load_user_model raises nothing and leaves the status ready after a
    successful load and error after a failed one. Called for a user without an
    entry it would raise KeyError from its exception handler. *)
Theorem single_file_task_finds_its_entry w i user_id model backend awaited now :
  ModelProxyServerProcess.reachable w →
  ModelProxyServerProcess.background_tasks w !! i = Some (user_id, model, backend) →
  (∀ e, awaited = inl e → is_Exception (exc_class e) = true) →
  let r := ModelProxyServer.load_user_model
             (ModelProxyServerProcess.globals w) user_id awaited now in
  r.2 = None ∧
  ModelProxyServer.status <$> ModelProxyServer.USER_DEPLOYMENTS r.1 !! user_id
    = Some (match awaited with inr _ => "ready" | inl _ => "error" end) ∧
  (∀ g u, ModelProxyServer.USER_DEPLOYMENTS g !! u = None →
          (ModelProxyServer.load_user_model g u awaited now).2
            = Some (ModelProxyServer.key_error u)).
Proof.
  intros Hw Hi Hexc.
  destruct (single_file_reachable_inv w Hw) as [Ht _].
  destruct (Ht i _ Hi) as [d Hd]. simpl in Hd. simpl.
  assert (Hown :
    (ModelProxyServer.load_user_model (ModelProxyServerProcess.globals w)
       user_id awaited now).2 = None ∧
    ModelProxyServer.status
      <$> ModelProxyServer.USER_DEPLOYMENTS
            (ModelProxyServer.load_user_model (ModelProxyServerProcess.globals w)
               user_id awaited now).1 !! user_id
    = Some (match awaited with inr _ => "ready" | inl _ => "error" end)).
  { destruct awaited as [e|md].
    - destruct (single_file_load_failure_recorded _ _ e now d Hd (Hexc e eq_refl))
        as (H1 & H2 & _). by split.
    - destruct (single_file_load_marks_ready _ _ md now d Hd) as (H1 & H2 & _).
      by split. }
  destruct Hown as [H1 H2]. split; [exact H1|]. split; [exact H2|].
  intros g u Hu.
  unfold ModelProxyServer.load_user_model, ModelProxyServer.load_user_model_except.
  destruct awaited as [e|md]; [rewrite (Hexc e eq_refl)|]; simpl; by rewrite Hu.
Qed.

(** X15, an instance. *)
Lemma single_file_task_finds_its_entry_witness :
  let request := ModelProxyServer.mkModelDeployRequest "gpt2" "transformers" true
                   (Some "u1") in
  let w := ModelProxyServerProcess.after
             [ModelProxyServerProcess.DeployModel request Examples.env_a] in
  ModelProxyServerProcess.reachable w ∧
  ModelProxyServerProcess.background_tasks w !! 0 = Some ("u1", "gpt2", "transformers") ∧
  (ModelProxyServer.load_user_model (ModelProxyServerProcess.globals w) "u1"
     (inl Examples.rejected) 7).2 = None ∧
  (ModelProxyServer.load_user_model (ModelProxyServer.mkGlobals ∅ ∅) "u1"
     (inl Examples.rejected) 7).2 = Some (ModelProxyServer.key_error "u1").
Proof.
  intros request w.
  assert (Hw : ModelProxyServerProcess.reachable w)
    by (apply single_file_after_reachable; by_evaluation).
  assert (Hi : ModelProxyServerProcess.background_tasks w !! 0
               = Some ("u1", "gpt2", "transformers")) by reflexivity.
  assert (Hexc : ∀ e, inl (B := ModelData) Examples.rejected = inl e →
                      is_Exception (exc_class e) = true).
  { intros e [= <-]. reflexivity. }
  split; [exact Hw|]. split; [exact Hi|].
  destruct (single_file_task_finds_its_entry w 0 "u1" "gpt2" "transformers"
              (inl Examples.rejected) 7 Hw Hi Hexc) as (Hnone & _ & Hkey).
  split; [exact Hnone|]. apply Hkey. reflexivity.
Defined.



(* ===================================================================== *)
(** ** Further properties of the compatibility check and the model search *)
(* ===================================================================== *)

Lemma str_app_cons (x : Ascii.ascii) (a b : string) :
  String x a ++ b = String x (a ++ b).
Proof. reflexivity. Qed.

Lemma str_app_assoc (a b c : string) : (a ++ b) ++ c = a ++ b ++ c.
Proof.
  induction a as [|x a IH]; [done|]. rewrite !str_app_cons. by f_equal.
Qed.

Lemma str_length_app (a b : string) :
  String.length (a ++ b) = String.length a + String.length b.
Proof.
  induction a as [|x a IH]; [done|]. rewrite str_app_cons. simpl. by rewrite IH.
Qed.

Lemma find_existsb_false {A} (f : A → bool) (l : list A) :
  find f l = None → existsb f l = false.
Proof.
  induction l as [|x l IH]; simpl; [done|].
  destruct (f x); [done|]. exact IH.
Qed.

Lemma str_in_existsb (x : string) (f : string → bool) (l : list string) :
  str_in x l = true → f x = true → existsb f l = true.
Proof.
  unfold str_in. induction l as [|y l IH]; simpl; [done|].
  intros Hin Hf. apply orb_true_iff in Hin as [Heq|Hin].
  - apply String.eqb_eq in Heq as <-. by rewrite Hf.
  - rewrite (IH Hin Hf). apply orb_true_r.
Qed.

(** X17.  is_compatible never returns the reason MLX quantized model not
    supported: that branch needs the tag mlx, which the tag loop has already
    rejected. When tags and library_name are values, the verdict is: the first
    tag whose lower-cased form contains an incompatible marker gives
    Incompatible format with that tag; otherwise a library whose lower-cased
    name is listed gives Incompatible library; otherwise Compatible. The flag
    is True exactly when the reason is Compatible. *)
Theorem is_compatible_verdict model_info :
  (∀ r, is_compatible model_info = inr r →
        r.2 ≠ "MLX quantized model not supported" ∧
        (r.1 = true ↔ r.2 = "Compatible")) ∧
  (∀ tags library_name,
     getattr (hub_tags model_info) [] = Value tags →
     getattr (hub_library_name model_info) "" = Value library_name →
     is_compatible model_info =
       inr match find has_incompatible_marker tags with
           | Some tag => (false, "Incompatible format: " ++ tag)
           | None =>
               if str_in (lower library_name) INCOMPATIBLE_LIBRARIES
               then (false, "Incompatible library: " ++ library_name)
               else (true, "Compatible")
           end).
Proof.
  assert (Hdead : ∀ tags, find has_incompatible_marker tags = None →
            existsb (contains "bit") tags && str_in "mlx" tags = false).
  { intros tags Hfind. destruct (str_in "mlx" tags) eqn:Hmlx;
      [|apply andb_false_r].
    apply find_existsb_false in Hfind.
    by rewrite (str_in_existsb "mlx" has_incompatible_marker tags Hmlx eq_refl)
      in Hfind. }
  unfold is_compatible. split.
  - intros r. destruct (getattr (hub_tags model_info) []) as [| |tags]; try done.
    destruct (find has_incompatible_marker tags) as [tag|] eqn:Hfind.
    { intros [= <-]. simpl. split; [done|]. split; done. }
    destruct (getattr (hub_library_name model_info) "") as [| |lib]; try done.
    rewrite (Hdead tags Hfind).
    destruct (str_in (lower lib) INCOMPATIBLE_LIBRARIES);
      intros [= <-]; simpl; split; done.
  - intros tags lib -> ->.
    destruct (find has_incompatible_marker tags) as [tag|] eqn:Hfind; [done|].
    rewrite (Hdead tags Hfind).
    by destruct (str_in (lower lib) INCOMPATIBLE_LIBRARIES).
Qed.

(** X17, an instance. *)
Lemma is_compatible_verdict_witness :
  let quantized := mkHubModelInfo (Value ["4-bit"; "MLX"; "mlx"]) (Value "mlx") Missing in
  getattr (hub_tags quantized) [] = Value ["4-bit"; "MLX"; "mlx"] ∧
  getattr (hub_library_name quantized) "" = Value "mlx" ∧
  is_compatible quantized = inr (false, "Incompatible format: MLX").
Proof.
  intros quantized.
  assert (H1 : getattr (hub_tags quantized) [] = Value ["4-bit"; "MLX"; "mlx"])
    by reflexivity.
  assert (H2 : getattr (hub_library_name quantized) "" = Value "mlx") by reflexivity.
  split; [exact H1|]. split; [exact H2|].
  rewrite (proj2 (is_compatible_verdict quantized) _ _ H1 H2). reflexivity.
Defined.

Lemma str_take_length n s : (String.length (str_take n s) ≤ n)%nat.
Proof.
  revert s. induction n as [|n IH]; intros [|a s]; simpl; try lia.
  specialize (IH s). lia.
Qed.

Lemma str_take_split n s :
  ∃ rest, s = str_take n s ++ rest ∧ (rest = "" ∨ String.length (str_take n s) = n).
Proof.
  revert s. induction n as [|n IH]; intros s.
  - exists s. split; [by destruct s|by right].
  - destruct s as [|a s]; [exists ""; by auto|].
    destruct (IH s) as (rest & Hr & Hfull). exists rest. split.
    + simpl str_take. by rewrite str_app_cons, <- Hr.
    + destruct Hfull as [->|Hlen]; [by left|right]. simpl. by rewrite Hlen.
Qed.

(** X18.  The description shown for a search result is empty when the raw
    description is missing or empty; otherwise it is a non-empty prefix of at
    most 200 characters of the raw description followed by three dots, and the
    prefix is the whole description unless it has 200 characters. The dots are
    appended to short descriptions too. *)
Theorem shown_description_bounded (description : option string) :
  shown_description description = "" ∧ (description = None ∨ description = Some "") ∨
  ∃ kept rest,
    description = Some (kept ++ rest) ∧
    shown_description description = kept ++ "..." ∧
    (1 ≤ String.length kept ≤ 200)%nat ∧
    (rest = "" ∨ String.length kept = 200%nat).
Proof.
  destruct description as [[|a d]|]; [left; by auto| |left; by auto]. right.
  destruct (str_take_split 200 (String a d)) as (rest & Hr & Hfull).
  exists (str_take 200 (String a d)), rest.
  split; [by rewrite <- Hr|]. split; [done|]. split; [|done].
  split; [simpl; lia|apply str_take_length].
Qed.

(** X19.  _process_model_info marks a model incompatible only when the Hub
    lookup returned and is_compatible gave a negative verdict, whose reason is
    then stored; a lookup that raises, or a check that raises, leaves the
    model marked compatible, and a compatible model has no
    compatibility_reason. *)
Theorem incompatible_only_by_verdict model looked_up info :
  _process_model_info model looked_up = inr info →
  (mi_compatible info = false ↔
   ∃ hub reason, looked_up = inr hub ∧ is_compatible hub = inr (false, reason) ∧
                 mi_compatibility_reason info = Some reason) ∧
  (mi_compatible info = true → mi_compatibility_reason info = None).
Proof.
  unfold _process_model_info. destruct looked_up as [e|hub].
  - destruct (is_Exception (exc_class e)); [|done]. intros [= <-]. simpl.
    split; [|done]. split; [done|]. by intros (? & ? & ? & _).
  - destruct (is_compatible hub) as [raised|[[] reason]] eqn:Hc;
      intros [= <-]; simpl; (split; [|done]).
    + split; [done|]. intros (? & ? & [= <-] & ? & _). congruence.
    + split; [done|]. intros (? & ? & [= <-] & ? & _). congruence.
    + split; [by eauto|done].
Qed.

(** X19, an instance. *)
Lemma incompatible_only_by_verdict_witness :
  let model := mkRawModel (Some "org/odd") None None None None in
  let looked_up := inr (mkHubModelInfo IsNone (Value "gguf") Missing) in
  ∃ info, _process_model_info model looked_up = inr info ∧
          mi_compatible info = true ∧ mi_compatibility_reason info = None ∧
          mi_library_name info = Some "gguf".
Proof.
  intros model looked_up. eexists. split; [reflexivity|]. split; [reflexivity|].
  split; [|reflexivity].
  by apply (incompatible_only_by_verdict model looked_up _ eq_refl).
Defined.

Lemma str_ends_False_True (a b : string) : a ++ "False" ≠ b ++ "True".
Proof.
  revert b. induction a as [|x a IH]; intros b Heq.
  - destruct b as [|y [|z b]]; [done|done|]. rewrite !str_app_cons in Heq.
    injection Heq as _ _ Heq. apply (f_equal String.length) in Heq.
    simpl in Heq. rewrite str_length_app in Heq. simpl in Heq. lia.
  - destruct b as [|y b].
    + apply (f_equal String.length) in Heq. rewrite str_app_cons in Heq.
      simpl in Heq. rewrite str_length_app in Heq. simpl in Heq. lia.
    + rewrite !str_app_cons in Heq. injection Heq as _ Heq. by eapply IH.
Qed.

Lemma cache_key_flag query limit query' limit' :
  cache_key query limit false ≠ cache_key query' limit' true.
Proof.
  unfold cache_key. simpl bool_str.
  rewrite <- !(str_app_assoc _ ":" "False"), <- !(str_app_assoc _ ":" "True").
  rewrite <- !(str_app_assoc _ (pretty _ ++ ":") _).
  rewrite <- !(str_app_assoc _ (":" ++ pretty _ ++ ":") _).
  apply str_ends_False_True.
Qed.

Lemma process_models_filtered models processed :
  process_models true models = inr processed →
  Forall (λ m, mi_compatible m = true) processed.
Proof.
  revert processed. induction models as [|[model looked_up] models IH];
    intros processed Hp; simpl in Hp.
  - by simplify_eq.
  - destruct (_process_model_info model looked_up) as [e|info]; [done|].
    destruct (process_models true models) as [e|rest]; [done|].
    specialize (IH rest eq_refl).
    destruct (mi_compatible info) eqn:Hc; simpl in Hp; simplify_eq; [|done].
    by constructor.
Qed.

Lemma fallback_models_compatible :
  Forall (λ m, mi_compatible m = true) _get_fallback_models.
Proof. repeat constructor. Qed.

(** Every entry cached under a key for filtered results holds compatible
    models only. *)
Lemma search_reachable_filtered self :
  search_reachable self →
  ∀ query limit models t,
    cache self !! cache_key query limit true = Some (models, t) →
    Forall (λ m, mi_compatible m = true) models.
Proof.
  induction 1 as [|env self q0 l0 f0 Hs IH]; intros query limit models t Hc.
  - simpl in Hc. by rewrite lookup_empty in Hc.
  - unfold search_models in Hc.
    assert (Hmiss : ∀ outcome : PyExc + list ModelInfo,
       (∀ ms, outcome = inr ms → f0 = true → Forall (λ m, mi_compatible m = true) ms) →
       cache (match outcome with
              | inr processed_models =>
                  (mkModelSearchService
                     (<[cache_key q0 l0 f0 := (processed_models, stored_at env)]>
                        (cache self)), inr processed_models)
              | inl e => if is_Exception (exc_class e)
                         then (self, inr _get_fallback_models) else (self, inl e)
              end).1 !! cache_key query limit true = Some (models, t) →
       Forall (λ m, mi_compatible m = true) models).
    { intros [e|ms] Hok Hl.
      - destruct (is_Exception (exc_class e)); by eapply IH.
      - simpl in Hl. rewrite lookup_insert in Hl. case_decide as Hk; [|by eapply IH].
        simplify_eq. destruct f0; [by apply Hok|].
        by apply cache_key_flag in Hk. }
    assert (Hout : ∀ ms,
       match fetched env with
       | inl e => inl e
       | inr models0 => process_models f0 models0
       end = inr ms → f0 = true → Forall (λ m, mi_compatible m = true) ms).
    { intros ms Hms ->. destruct (fetched env) as [e|models0]; [done|].
      by eapply process_models_filtered. }
    destruct (cache self !! cache_key q0 l0 f0) as [[cached ts]|].
    + destruct (cache_fresh env); [by eapply IH|]. by eapply (Hmiss _ Hout).
    + by eapply (Hmiss _ Hout).
Qed.

(** X20.  Starting from the empty cache and after any sequence of searches, a
    search with filter_compatible=True returns only models marked compatible,
    whether the result comes from the cache, from a fetch or from the fallback
    list: the cache key ends in the flag, so results of an unfiltered search
    are never served to a filtered one. *)
Theorem filtered_search_returns_compatible env self query limit models :
  search_reachable self →
  (search_models env self query limit true).2 = inr models →
  Forall (λ m, mi_compatible m = true) models.
Proof.
  intros Hs Hr. pose proof (search_reachable_filtered self Hs) as Hinv.
  unfold search_models in Hr.
  assert (Hmiss :
    (match match fetched env with
           | inl e => inl e
           | inr models0 => process_models true models0
           end with
     | inr processed_models =>
         (mkModelSearchService
            (<[cache_key query limit true := (processed_models, stored_at env)]>
               (cache self)), inr processed_models)
     | inl e => if is_Exception (exc_class e)
                then (self, inr _get_fallback_models) else (self, inl e)
     end).2 = inr models →
    Forall (λ m, mi_compatible m = true) models).
  { destruct (fetched env) as [e|models0].
    - destruct (is_Exception (exc_class e)); simpl; [|done].
      intros [= <-]. apply fallback_models_compatible.
    - destruct (process_models true models0) as [e|ms] eqn:Hp.
      + destruct (is_Exception (exc_class e)); simpl; [|done].
        intros [= <-]. apply fallback_models_compatible.
      + simpl. intros [= <-]. by apply process_models_filtered in Hp. }
  destruct (cache self !! cache_key query limit true) as [[cached ts]|] eqn:Hc.
  - destruct (cache_fresh env); [|by apply Hmiss].
    simpl in Hr. simplify_eq. by eapply Hinv.
  - by apply Hmiss.
Qed.

(** X20, an instance. *)
Lemma filtered_search_returns_compatible_witness :
  let env := mkSearchEnv false
    (inr [ (mkRawModel (Some "org/model-gguf") None None None None,
            inr (mkHubModelInfo (Value ["GGUF"]) (Value "transformers") Missing));
           (mkRawModel (Some "gpt2") None None None None,
            inr (mkHubModelInfo (Value ["pytorch"]) (Value "transformers") Missing)) ])
    0%nat in
  let self := (search_models env (mkModelSearchService ∅) "gpt" 10 true).1 in
  search_reachable self ∧
  ∃ models, (search_models env self "gpt" 10 true).2 = inr models ∧
            Forall (λ m, mi_compatible m = true) models ∧ length models = 1.
Proof.
  intros env self.
  assert (Hs : search_reachable self) by (apply search_reachable_call; constructor).
  split; [exact Hs|]. eexists. split; [vm_compute; reflexivity|].
  split; [|reflexivity].
  apply (filtered_search_returns_compatible env self "gpt" 10 _ Hs).
  vm_compute. reflexivity.
Defined.

(** X21.  When the fetch and the processing of a search succeed, the call
    returns a list, and a repeated call with the same query, limit and flag
    that finds the cache entry fresh returns the same list and leaves the
    cache unchanged, whatever the Hub would answer then. *)
Theorem search_result_cached env self query limit filter_compatible models processed :
  fetched env = inr models →
  process_models filter_compatible models = inr processed →
  ∃ returned,
    (search_models env self query limit filter_compatible).2 = inr returned ∧
    ∀ env', cache_fresh env' = true →
      search_models env' (search_models env self query limit filter_compatible).1
        query limit filter_compatible
      = ((search_models env self query limit filter_compatible).1, inr returned).
Proof.
  intros Hf Hp.
  assert (Hmiss : search_models env self query limit filter_compatible
                  = (self, inr processed) ∧ False ∨
          search_models env self query limit filter_compatible
          = (mkModelSearchService
               (<[cache_key query limit filter_compatible := (processed, stored_at env)]>
                  (cache self)), inr processed) ∨
          ∃ cached ts, cache self !! cache_key query limit filter_compatible
                       = Some (cached, ts) ∧
            search_models env self query limit filter_compatible = (self, inr cached)).
  { unfold search_models. rewrite Hf, Hp.
    destruct (cache self !! cache_key query limit filter_compatible)
      as [[cached ts]|]; [|by right; left].
    destruct (cache_fresh env); [|by right; left]. right. right. by eauto. }
  destruct Hmiss as [[_ []]|[Hr|(cached & ts & Hc & Hr)]]; rewrite Hr; simpl.
  - exists processed. split; [done|]. intros env' Hfresh.
    unfold search_models. simpl. rewrite lookup_insert.
    case_decide; [|done]. by rewrite Hfresh.
  - exists cached. split; [done|]. intros env' Hfresh.
    unfold search_models. by rewrite Hc, Hfresh.
Qed.

(** X21, an instance. *)
Lemma search_result_cached_witness :
  let env := mkSearchEnv false
    (inr [ (mkRawModel (Some "gpt2") None None None None,
            inl (mkPyExc OSErrorCls "offline")) ]) 0%nat in
  ∃ returned,
    (search_models env (mkModelSearchService ∅) "gpt" 10 false).2 = inr returned ∧
    length returned = 1 ∧
    search_models (mkSearchEnv true (inl (mkPyExc OSErrorCls "offline")) 5%nat)
      (search_models env (mkModelSearchService ∅) "gpt" 10 false).1 "gpt" 10 false
    = ((search_models env (mkModelSearchService ∅) "gpt" 10 false).1, inr returned).
Proof.
  intros env.
  destruct (search_result_cached env (mkModelSearchService ∅) "gpt" 10 false _ _
              eq_refl eq_refl) as (returned & Hr & Hnext).
  exists returned. split; [exact Hr|]. split.
  - vm_compute in Hr. injection Hr as <-. reflexivity.
  - by apply Hnext.
Defined.

Lemma search_models_raised env self query limit filter_compatible e :
  (search_models env self query limit filter_compatible).2 = inl e →
  is_Exception (exc_class e) = false ∧
  (search_models env self query limit filter_compatible).1 = self.
Proof.
  unfold search_models.
  assert (Hmiss : ∀ outcome : PyExc + list ModelInfo,
    (match outcome with
     | inr processed_models =>
         (mkModelSearchService
            (<[cache_key query limit filter_compatible
               := (processed_models, stored_at env)]> (cache self)),
          inr processed_models)
     | inl e => if is_Exception (exc_class e)
                then (self, inr _get_fallback_models) else (self, inl e)
     end).2 = inl e →
    is_Exception (exc_class e) = false ∧
    (match outcome with
     | inr processed_models =>
         (mkModelSearchService
            (<[cache_key query limit filter_compatible
               := (processed_models, stored_at env)]> (cache self)),
          inr processed_models)
     | inl e => if is_Exception (exc_class e)
                then (self, inr _get_fallback_models) else (self, inl e)
     end).1 = self).
  { intros [e'|ms]; [|done].
    destruct (is_Exception (exc_class e')) eqn:He; simpl; [done|].
    by intros [= <-]. }
  destruct (cache self !! cache_key query limit filter_compatible) as [[cached ts]|].
  - destruct (cache_fresh env); [done|]. apply Hmiss.
  - apply Hmiss.
Qed.

(** X22.  The search route never answers with an HTTP error: search_models
    catches every Exception itself and returns the fallback models, so the 500
    handler of the route is unreachable. The route returns what the service
    returns; only an exception outside Exception (such as a cancellation)
    leaves it, and then the cache is unchanged. *)
Theorem search_route_has_no_error_answer env self query limit filter_compatible :
  match (SearchRoute.search_models env self query limit filter_compatible).2 with
  | Return models =>
      (search_models env self query limit filter_compatible).2 = inr models
  | HTTPException _ _ => False
  | Unhandled e =>
      is_Exception (exc_class e) = false ∧
      (SearchRoute.search_models env self query limit filter_compatible).1 = self
  end.
Proof.
  unfold SearchRoute.search_models.
  pose proof (search_models_raised env self query limit filter_compatible) as Hr.
  destruct (search_models env self query limit filter_compatible)
    as [self' [e|models]]; simpl in *; [|done].
  destruct (Hr e eq_refl) as [He ->]. by rewrite He.
Qed.

(** *** Generated text: stop sequences, the assistant marker, trimming *)

Lemma prefix_app a x t : String.prefix a x = true → String.prefix a (x ++ t) = true.
Proof.
  revert x. induction a as [|c a IH]; intros x; [intros _; by destruct (x ++ t)|].
  destruct x as [|d x]; [done|]. rewrite str_app_cons. simpl.
  destruct (Ascii.ascii_dec c d); [apply IH|done].
Qed.

Lemma contains_cons a c x :
  contains a (String c x) = String.prefix a (String c x) || contains a x.
Proof. reflexivity. Qed.

Lemma contains_nil a : a ≠ "" → contains a "" = false.
Proof. by destruct a. Qed.

Lemma contains_app_r a x t : contains a x = true → contains a (x ++ t) = true.
Proof.
  induction x as [|c x IH].
  - destruct a; [|done]. intros _. by destruct t.
  - rewrite str_app_cons, !contains_cons. intros [Hp|Hc]%orb_true_iff.
    + apply orb_true_iff. left. rewrite <- str_app_cons. by apply prefix_app.
    + apply orb_true_iff. right. by apply IH.
Qed.

Lemma contains_app_l a x t : contains a x = true → contains a (t ++ x) = true.
Proof.
  intros Hx. induction t as [|c t IH]; [done|].
  rewrite str_app_cons, contains_cons, IH. apply orb_true_r.
Qed.

Lemma split_from_nonempty sep skip s : split_from sep skip s ≠ [].
Proof.
  revert skip. induction s as [|a s IH]; intros skip; [by simpl|].
  destruct skip as [|k]; [|apply IH]. cbn [split_from].
  destruct (String.prefix sep (String a s)); [done|].
  by destruct (split_from sep 0 s).
Qed.

Lemma split_from_single sep s piece : split_from sep 0 s = [piece] → piece = s.
Proof.
  revert piece. induction s as [|a s IH]; intros piece; cbn [split_from].
  - by intros [= <-].
  - destruct (String.prefix sep (String a s)).
    + intros [= _ Hn]. by apply split_from_nonempty in Hn.
    + destruct (split_from sep 0 s) as [|p ps] eqn:Hs;
        [by apply split_from_nonempty in Hs|].
      intros [= <- ->]. by rewrite (IH p eq_refl).
Qed.

Lemma hd_split_prefix sep s : ∃ t, s = List.hd "" (split_from sep 0 s) ++ t.
Proof.
  induction s as [|a s [t IH]]; [by exists ""|]. cbn [split_from].
  destruct (String.prefix sep (String a s)); [by exists (String a s)|].
  destruct (split_from sep 0 s) as [|p ps]; cbn [List.hd] in *.
  - exists s. by rewrite str_app_cons.
  - exists t. by rewrite str_app_cons, <- IH.
Qed.

Lemma hd_split_no_sep sep s :
  sep ≠ "" → contains sep (List.hd "" (split_from sep 0 s)) = false.
Proof.
  intros Hsep. induction s as [|a s IH]; cbn [split_from].
  - by apply contains_nil.
  - destruct (String.prefix sep (String a s)) eqn:Hp; [by apply contains_nil|].
    destruct (hd_split_prefix sep s) as [t Ht].
    destruct (split_from sep 0 s) as [|p ps] eqn:Hs.
    + by apply split_from_nonempty in Hs.
    + cbn [List.hd] in *. rewrite contains_cons, IH, orb_false_r.
      destruct (String.prefix sep (String a p)) eqn:Hp'; [|done].
      apply (prefix_app _ _ t) in Hp'. rewrite str_app_cons, <- Ht in Hp'. congruence.
Qed.

Lemma last_cons_nonempty {A} (x : A) l d : l ≠ [] → List.last (x :: l) d = List.last l d.
Proof. by destruct l. Qed.

Lemma last_split_suffix sep skip s : ∃ t, s = t ++ List.last (split_from sep skip s) "".
Proof.
  revert skip. induction s as [|a s IH]; intros skip; [by exists ""|].
  destruct skip as [|k].
  - cbn [split_from]. destruct (String.prefix sep (String a s)).
    + rewrite last_cons_nonempty by apply split_from_nonempty.
      destruct (IH (String.length sep - 1)) as [t Ht].
      exists (String a t). by rewrite str_app_cons, <- Ht.
    + destruct (IH 0) as [t Ht].
      destruct (split_from sep 0 s) as [|p [|q ps]] eqn:Hs.
      * by apply split_from_nonempty in Hs.
      * exists "". by rewrite (split_from_single _ _ _ Hs).
      * exists (String a t). rewrite str_app_cons. by rewrite Ht at 1.
  - destruct (IH k) as [t Ht]. exists (String a t).
    rewrite str_app_cons. cbn [split_from]. by rewrite <- Ht.
Qed.

Lemma last_split_no_sep sep skip s :
  sep ≠ "" → contains sep (List.last (split_from sep skip s) "") = false.
Proof.
  intros Hsep. revert skip. induction s as [|a s IH]; intros skip.
  - by apply contains_nil.
  - destruct skip as [|k]; [|apply IH]. cbn [split_from].
    destruct (String.prefix sep (String a s)) eqn:Hp.
    + rewrite last_cons_nonempty by apply split_from_nonempty. apply IH.
    + specialize (IH 0).
      destruct (split_from sep 0 s) as [|p [|q ps]] eqn:Hs.
      * by apply split_from_nonempty in Hs.
      * apply split_from_single in Hs as ->. simpl in IH |- *.
        change (contains sep (String a s) = false).
        by rewrite contains_cons, Hp, IH.
      * exact IH.
Qed.

Lemma lstrip_suffix s : ∃ t, s = t ++ lstrip s.
Proof.
  induction s as [|a s [t IH]]; [by exists ""|]. simpl.
  destruct (is_space a); [|by exists ""].
  exists (String a t). by rewrite str_app_cons, <- IH.
Qed.

Lemma rstrip_prefix s : ∃ t, s = rstrip s ++ t.
Proof.
  induction s as [|a s [t IH]]; [by exists ""|]. simpl.
  destruct (rstrip s) as [|c kept].
  - destruct (is_space a); [by exists (String a s)|].
    exists s. by rewrite str_app_cons.
  - exists t. by rewrite str_app_cons, <- IH.
Qed.

Lemma contains_strip a s : contains a (strip s) = true → contains a s = true.
Proof.
  intros H. destruct (lstrip_suffix s) as [l Hl].
  destruct (rstrip_prefix (lstrip s)) as [r Hr].
  rewrite Hl. apply contains_app_l. rewrite Hr. by apply contains_app_r.
Qed.

Lemma lstrip_head s a rest : lstrip s = String a rest → is_space a = false.
Proof.
  induction s as [|c s IH]; [done|]. simpl.
  destruct (is_space c) eqn:Hc; [done|]. by intros [= <- _].
Qed.

Lemma rstrip_head s a rest : rstrip s = String a rest → ∃ rest', s = String a rest'.
Proof.
  destruct s as [|c s]; [done|]. simpl.
  destruct (rstrip s); [destruct (is_space c)|]; intros [= <- _]; eauto.
Qed.

Lemma rstrip_last s front a : rstrip s = front ++ String a "" → is_space a = false.
Proof.
  revert front. induction s as [|c s IH]; intros front; simpl.
  - by destruct front.
  - destruct (rstrip s) as [|k kept] eqn:Hr.
    + destruct (is_space c) eqn:Hc; [by destruct front|].
      destruct front as [|f [|g front]]; rewrite ?str_app_cons; [|done|done].
      by intros [= <-].
    + destruct front as [|f front]; rewrite ?str_app_cons.
      * done.
      * intros [= _ Hk]. by eapply IH.
Qed.

Lemma strip_first s a rest : strip s = String a rest → is_space a = false.
Proof.
  unfold strip. intros [rest' H]%rstrip_head. by eapply lstrip_head.
Qed.

(** What [_generate_causal_lm] makes of the text after the stop sequences. *)
Lemma causal_lm_after_stop pipeline_result stop response :
  _generate_causal_lm pipeline_result stop = inr response →
  ∃ text stopped extracted,
    pipeline_result = inr text ∧
    match stop with
    | None | Some [] => inr text
    | Some stop => apply_stop stop text
    end = inr stopped ∧
    extracted = (if contains "Assistant:" stopped
                 then List.last (split_from "Assistant:" 0 stopped) "" else stopped) ∧
    response = strip extracted.
Proof.
  unfold _generate_causal_lm. destruct pipeline_result as [e|text]; [done|].
  destruct (match stop with None | Some [] => inr text
            | Some stop0 => apply_stop stop0 text end) as [e|stopped] eqn:Hs; [done|].
  unfold str_split. rewrite bool_decide_false by done.
  intros Hr. exists text, stopped. eexists. split; [done|]. split; [done|].
  split; [reflexivity|].
  destruct (contains "Assistant:" stopped); by simplify_eq.
Qed.

Lemma causal_lm_stopped text stop stopped :
  match stop with
  | None | Some [] => inr text
  | Some stop => apply_stop stop text
  end = inr stopped →
  _generate_causal_lm (inr text) stop
  = inr (strip (if contains "Assistant:" stopped
                then List.last (split_from "Assistant:" 0 stopped) "" else stopped)).
Proof.
  intros H. unfold _generate_causal_lm. rewrite H. unfold str_split.
  rewrite bool_decide_false by done. by destruct (contains "Assistant:" stopped).
Qed.

Lemma extracted_substring q stopped :
  contains q (if contains "Assistant:" stopped
              then List.last (split_from "Assistant:" 0 stopped) "" else stopped) = true →
  contains q stopped = true.
Proof.
  destruct (contains "Assistant:" stopped); [|done]. intros H.
  destruct (last_split_suffix "Assistant:" 0 stopped) as [t Ht].
  rewrite Ht. by apply contains_app_l.
Qed.

(** X23.  A response returned by _generate_causal_lm never contains the marker
    Assistant: and neither starts nor ends with a whitespace character, for
    every generated text and every list of stop sequences. *)
Theorem causal_lm_response_trimmed pipeline_result stop response :
  _generate_causal_lm pipeline_result stop = inr response →
  contains "Assistant:" response = false ∧
  (∀ a rest, response = String a rest → is_space a = false) ∧
  (∀ front a, response = front ++ String a "" → is_space a = false).
Proof.
  intros (text & stopped & extracted & _ & _ & He & ->)%causal_lm_after_stop.
  split; [|split].
  - destruct (contains "Assistant:" (strip extracted)) eqn:Hc; [|done].
    apply contains_strip in Hc. subst extracted.
    destruct (contains "Assistant:" stopped) eqn:Hs; [|congruence].
    by rewrite last_split_no_sep in Hc.
  - intros a rest. apply strip_first.
  - intros front a. apply rstrip_last.
Qed.

(** X23, an instance. *)
Lemma causal_lm_response_trimmed_witness :
  _generate_causal_lm (inr " Sure. Assistant: Hello!  Assistant:  Bye. ") None
    = inr "Bye." ∧
  contains "Assistant:" "Bye." = false.
Proof.
  split; [reflexivity|].
  apply (causal_lm_response_trimmed
           (inr " Sure. Assistant: Hello!  Assistant:  Bye. ") None "Bye." eq_refl).
Defined.

(** X24.  If some stop sequence occurs in the generated text and the first
    such sequence in the list is not empty, _generate_causal_lm returns a
    response that does not contain that sequence. Only that one sequence is
    applied: a later stop sequence can remain in the response. *)
Theorem first_stop_sequence_cut text stop stop_seq :
  find (λ q, contains q text) stop = Some stop_seq → stop_seq ≠ "" →
  ∃ response,
    _generate_causal_lm (inr text) (Some stop) = inr response ∧
    contains stop_seq response = false.
Proof.
  intros Hfind Hne.
  assert (Hstop : apply_stop stop text
                  = inr (List.hd "" (split_from stop_seq 0 text))).
  { induction stop as [|q stop IH]; [done|]. simpl in Hfind |- *.
    destruct (contains q text); [|by apply IH].
    simplify_eq. unfold str_split. by rewrite bool_decide_false. }
  destruct stop as [|q stop]; [done|].
  rewrite (causal_lm_stopped text (Some (q :: stop)) _ Hstop).
  eexists. split; [done|].
  destruct (contains stop_seq (strip _)) eqn:Hc; [|done].
  apply contains_strip, extracted_substring in Hc.
  by rewrite hd_split_no_sep in Hc.
Qed.

(** X24, an instance. *)
Lemma first_stop_sequence_cut_witness :
  find (λ q, contains q "one; two. three") ["."; ";"] = Some "." ∧
  _generate_causal_lm (inr "one; two. three") (Some ["."; ";"]) = inr "one; two" ∧
  contains "." "one; two" = false ∧ contains ";" "one; two" = true.
Proof.
  split; [reflexivity|].
  destruct (first_stop_sequence_cut "one; two. three" ["."; ";"] "." eq_refl)
    as (response & Hr & Hc); [done|].
  vm_compute in Hr. injection Hr as <-.
  split; [reflexivity|]. split; [exact Hc|reflexivity].
Defined.

(** X25.  For a READY deployment with a loaded causal model whose key check
    passes, a chat request whose first stop sequence occurring in the
    generated text is the empty string (which occurs in every text) is
    answered with 400 empty separator: the split on the empty string raises
    ValueError, which the route maps to 400. The generated text is discarded. *)
Theorem empty_stop_sequence_is_bad_request
    st self uid d model_data messages credentials text stop :
  get_deployment self uid = Some d → status d = READY →
  key_required st d = false ∨ credential_matches d credentials = true →
  get_user_model self uid = Some model_data →
  md_task model_data ≠ "text2text-generation" →
  find (λ q, contains q text) stop = Some "" →
  user_chat_completions st self uid messages credentials
    (response_text model_data (inr text) (Some stop))
  = HTTPException 400 "empty separator".
Proof.
  intros Hd Hst Hgate Hmd Htask Hfind.
  assert (Hstop : apply_stop stop text = inl (mkPyExc ValueErrorCls "empty separator")).
  { induction stop as [|q stop IH]; [done|]. simpl in Hfind |- *.
    destruct (contains q text); [|by apply IH]. by simplify_eq. }
  assert (Hgen : response_text model_data (inr text) (Some stop)
                 = inl (mkPyExc ValueErrorCls "empty separator")).
  { unfold response_text. rewrite bool_decide_false by done.
    unfold _generate_causal_lm. destruct stop as [|q stop]; [done|].
    by rewrite Hstop. }
  rewrite Hgen. unfold user_chat_completions.
  pose proof (verify_api_key_gate st self uid d credentials Hd) as Hv.
  assert (key_required st d && negb (credential_matches d credentials) = false) as Hk.
  { destruct Hgate as [->| ->]; [done|]. apply andb_false_r. }
  rewrite Hk in Hv. rewrite Hv.
  unfold chat_completion. rewrite Hd, Hst, Hmd. reflexivity.
Qed.

(** X25, an instance. *)
Lemma empty_stop_sequence_is_bad_request_witness :
  let w := Examples.after default_settings (Examples.deploy_and_load "u1" "gpt2" false) in
  find (λ q, contains q "Hello there") ["###"; ""] = Some "" ∧
  user_chat_completions default_settings (user_service w) "u1" Examples.hello None
    (response_text Examples.gpt2_data (inr "Hello there") (Some ["###"; ""]))
  = HTTPException 400 "empty separator".
Proof.
  intros w. split; [reflexivity|].
  eapply (empty_stop_sequence_is_bad_request default_settings (user_service w) "u1" _
            Examples.gpt2_data Examples.hello None "Hello there" ["###"; ""]).
  - reflexivity.
  - reflexivity.
  - by left.
  - reflexivity.
  - done.
  - reflexivity.
Defined.
